(** * pgcopydb: the catch-up applier of src/bin/pgcopydb/ld_apply.c

    A shallow embedding of the SQL line classifier (parseSQLAction), the
    file replay engine (stream_apply_file), the sentinel client
    (stream_apply_wait_for_sentinel, stream_apply_sync_sentinel), the origin
    bootstrap (setupReplicationOrigin, computeSQLFileName) and the catch-up
    driver (stream_apply_catchup), followed by the properties of the
    specification that were checked against them. *)

From Stdlib Require Import String Ascii NArith List Bool Arith Lia Sorted.
Import ListNotations.
Local Open Scope string_scope.

(* ================================================================= *)
(** ** C strings *)

Module CString.

(** [strstr haystack needle]: the offset of the first occurrence of
    [needle] in [haystack], [None] for the NULL pointer. *)
Definition strstr (haystack needle : string) : option nat :=
  String.index 0 needle haystack.

(** The string a [char *] points to, [offset] bytes into [s]. The C code
    only builds such a pointer from a match of a tag at the start of [s];
    past the terminating NUL the C behaviour is undefined and the model
    yields the empty string. *)
Fixpoint string_at (s : string) (offset : nat) : string :=
  match offset, s with
  | O, _ => s
  | S n, String _ s' => string_at s' n
  | S _, EmptyString => EmptyString
  end.

(** [if (sql[len - 1] == ';') sql[len - 1] = '\0';] *)
Fixpoint chomp_semicolon (sql : string) : string :=
  match sql with
  | EmptyString => EmptyString
  | String c EmptyString => if Ascii.eqb c ";" then EmptyString else sql
  | String c rest => String c (chomp_semicolon rest)
  end.

Definition hex_digit (d : N) : ascii :=
  match d with
  | 0 => "0" | 1 => "1" | 2 => "2" | 3 => "3" | 4 => "4" | 5 => "5"
  | 6 => "6" | 7 => "7" | 8 => "8" | 9 => "9" | 10 => "A" | 11 => "B"
  | 12 => "C" | 13 => "D" | 14 => "E" | _ => "F"
  end%N%char.

Fixpoint hex_digits (fuel : nat) (n : N) (acc : string) : string :=
  match fuel with
  | O => acc
  | S fuel' =>
      let acc' := String (hex_digit (n mod 16)) acc in
      if (n / 16 =? 0)%N then acc' else hex_digits fuel' (n / 16)%N acc'
  end.

(** printf's [%X] on an unsigned value. *)
Definition format_X (n : N) : string :=
  hex_digits (S (N.to_nat (N.log2 n))) n "".

Fixpoint zeros (n : nat) : string :=
  match n with O => "" | S n' => String "0" (zeros n') end.

(** printf's [%08X]. *)
Definition format_08X (n : N) : string :=
  let s := format_X n in zeros (8 - String.length s) ++ s.

Definition uint32 (n : N) : N := (n mod 4294967296)%N.

End CString.
Import CString.

(* ================================================================= *)
(** ** Data model (ld_stream.h, pgsql.h, as ld_apply.c uses them) *)

(** [XLogRecPtr] is a [uint64_t]; ld_apply.c only compares positions and
    never does arithmetic on them. *)
Definition XLogRecPtr := N.
Bind Scope N_scope with XLogRecPtr.
Definition InvalidXLogRecPtr : XLogRecPtr := 0%N.

(** [LSN_FORMAT_ARGS] with the ["%X/%X"] format. *)
Definition format_lsn (lsn : XLogRecPtr) : string :=
  format_X (uint32 (N.shiftr lsn 32)) ++ "/" ++ format_X (uint32 lsn).
Arguments format_lsn lsn : simpl never.

(** Modelled from the spec: the [StreamAction] enum is declared in
    ld_stream.h, which is not among the sources; section 3 lists its nine
    kinds. [STREAM_ACTION_UNKNOWN] is the zero value, the one that
    [StreamAction action = ...; return false;] yields. *)
Inductive StreamAction : Set :=
| STREAM_ACTION_UNKNOWN
| STREAM_ACTION_BEGIN
| STREAM_ACTION_COMMIT
| STREAM_ACTION_INSERT
| STREAM_ACTION_UPDATE
| STREAM_ACTION_DELETE
| STREAM_ACTION_TRUNCATE
| STREAM_ACTION_SWITCH
| STREAM_ACTION_KEEPALIVE.

Record LogicalMessageMetadata : Set := mkMetadata {
  action : StreamAction;
  xid : N;
  lsn : XLogRecPtr;
  timestamp : string
}.

(** [LogicalMessageMetadata metadata = { 0 };] *)
Definition metadata_zero : LogicalMessageMetadata :=
  mkMetadata STREAM_ACTION_UNKNOWN 0%N InvalidXLogRecPtr "".

Definition set_action (a : StreamAction) (m : LogicalMessageMetadata) :=
  mkMetadata a (xid m) (lsn m) (timestamp m).

(** [IS_EMPTY_STRING_BUFFER] *)
Definition IS_EMPTY_STRING_BUFFER (s : string) : bool := String.eqb s "".

(** The control fields of the sentinel record. *)
Module Sentinel.
Record CopyDBSentinel : Set := mk {
  startpos : XLogRecPtr;
  endpos : XLogRecPtr;
  apply : bool
}.
(** [CopyDBSentinel sentinel = { 0 };] *)
Definition zero : CopyDBSentinel := mk 0%N 0%N false.
End Sentinel.
Definition CopyDBSentinel : Set := Sentinel.CopyDBSentinel.

(** Messages written through log.h, by level and format string. *)
Inductive LogLevel : Set := LOG_DEBUG | LOG_INFO | LOG_WARN | LOG_ERROR | LOG_FATAL.

Definition LogLine : Set := LogLevel * string.

(** What the applier sends on its connection to the target database. *)
Inductive PgCommand : Set :=
| PgBegin                                                  (* pgsql_begin *)
| PgExecute (sql : string)                                 (* pgsql_execute *)
| PgOriginXactSetup (origin_lsn origin_timestamp : string) (* pgsql_replication_origin_xact_setup *)
| PgOriginOid (nodeName : string)                          (* pgsql_replication_origin_oid *)
| PgOriginProgress (nodeName : string)                     (* pgsql_replication_origin_progress *)
| PgOriginSessionSetup (nodeName : string)                 (* pgsql_replication_origin_session_setup *)
| PgFinish.                                                (* pgsql_finish *)

Inductive ConnStatementType : Set :=
| PGSQL_CONNECTION_SINGLE_STATEMENT
| PGSQL_CONNECTION_MULTI_STATEMENT.

(** The [PGSQL] client of the target: the commands sent so far, oldest
    first. *)
Record PGSQL : Set := mkPGSQL {
  connectionStatementType : ConnStatementType;
  sent : list PgCommand
}.

Definition pgsql_zero : PGSQL := mkPGSQL PGSQL_CONNECTION_SINGLE_STATEMENT [].

Record StreamApplyContext : Set := mkContext {
  dir : string;                 (* paths.dir *)
  timeline : N;                 (* system.timeline *)
  WalSegSz : N;
  source_pguri : string;
  target_pguri : string;
  origin : string;
  pgsql : PGSQL;
  previousLSN : XLogRecPtr;
  startpos : XLogRecPtr;
  endpos : XLogRecPtr;
  apply : bool;
  reachedEndPos : bool;
  wal : string;
  sqlFileName : string;
  log : list LogLine             (* the log output so far, oldest first *)
}.

(** A command that registers an origin position registers one at or
    before [limit]. *)
Definition setup_within (limit : XLogRecPtr) (cmd : PgCommand) : Prop :=
  match cmd with
  | PgOriginXactSetup origin_lsn _ =>
      exists x : XLogRecPtr, origin_lsn = format_lsn x /\ (x <= limit)%N
  | _ => True
  end.

(** [StreamApplyContext context = { 0 };] *)
Definition context_zero : StreamApplyContext :=
  mkContext "" 0%N 0%N "" "" "" pgsql_zero 0%N 0%N 0%N false false "" "" [].

Section Setters.
Variable c : StreamApplyContext.

Definition set_paths (v : string) :=
  mkContext v (timeline c) (WalSegSz c) (source_pguri c) (target_pguri c)
    (origin c) (pgsql c) (previousLSN c) (startpos c) (endpos c) (apply c)
    (reachedEndPos c) (wal c) (sqlFileName c) (log c).
Definition set_system (tli segsz : N) :=
  mkContext (dir c) tli segsz (source_pguri c) (target_pguri c)
    (origin c) (pgsql c) (previousLSN c) (startpos c) (endpos c) (apply c)
    (reachedEndPos c) (wal c) (sqlFileName c) (log c).
Definition set_source_pguri (v : string) :=
  mkContext (dir c) (timeline c) (WalSegSz c) v (target_pguri c)
    (origin c) (pgsql c) (previousLSN c) (startpos c) (endpos c) (apply c)
    (reachedEndPos c) (wal c) (sqlFileName c) (log c).
Definition set_target_pguri (v : string) :=
  mkContext (dir c) (timeline c) (WalSegSz c) (source_pguri c) v
    (origin c) (pgsql c) (previousLSN c) (startpos c) (endpos c) (apply c)
    (reachedEndPos c) (wal c) (sqlFileName c) (log c).
Definition set_origin (v : string) :=
  mkContext (dir c) (timeline c) (WalSegSz c) (source_pguri c) (target_pguri c)
    v (pgsql c) (previousLSN c) (startpos c) (endpos c) (apply c)
    (reachedEndPos c) (wal c) (sqlFileName c) (log c).
Definition set_pgsql (v : PGSQL) :=
  mkContext (dir c) (timeline c) (WalSegSz c) (source_pguri c) (target_pguri c)
    (origin c) v (previousLSN c) (startpos c) (endpos c) (apply c)
    (reachedEndPos c) (wal c) (sqlFileName c) (log c).
Definition set_previousLSN (v : XLogRecPtr) :=
  mkContext (dir c) (timeline c) (WalSegSz c) (source_pguri c) (target_pguri c)
    (origin c) (pgsql c) v (startpos c) (endpos c) (apply c)
    (reachedEndPos c) (wal c) (sqlFileName c) (log c).
Definition set_startpos (v : XLogRecPtr) :=
  mkContext (dir c) (timeline c) (WalSegSz c) (source_pguri c) (target_pguri c)
    (origin c) (pgsql c) (previousLSN c) v (endpos c) (apply c)
    (reachedEndPos c) (wal c) (sqlFileName c) (log c).
Definition set_endpos (v : XLogRecPtr) :=
  mkContext (dir c) (timeline c) (WalSegSz c) (source_pguri c) (target_pguri c)
    (origin c) (pgsql c) (previousLSN c) (startpos c) v (apply c)
    (reachedEndPos c) (wal c) (sqlFileName c) (log c).
Definition set_apply (v : bool) :=
  mkContext (dir c) (timeline c) (WalSegSz c) (source_pguri c) (target_pguri c)
    (origin c) (pgsql c) (previousLSN c) (startpos c) (endpos c) v
    (reachedEndPos c) (wal c) (sqlFileName c) (log c).
Definition set_reachedEndPos (v : bool) :=
  mkContext (dir c) (timeline c) (WalSegSz c) (source_pguri c) (target_pguri c)
    (origin c) (pgsql c) (previousLSN c) (startpos c) (endpos c) (apply c)
    v (wal c) (sqlFileName c) (log c).
Definition set_wal (v : string) :=
  mkContext (dir c) (timeline c) (WalSegSz c) (source_pguri c) (target_pguri c)
    (origin c) (pgsql c) (previousLSN c) (startpos c) (endpos c) (apply c)
    (reachedEndPos c) v (sqlFileName c) (log c).
Definition set_sqlFileName (v : string) :=
  mkContext (dir c) (timeline c) (WalSegSz c) (source_pguri c) (target_pguri c)
    (origin c) (pgsql c) (previousLSN c) (startpos c) (endpos c) (apply c)
    (reachedEndPos c) (wal c) v (log c).
Definition set_log (v : list LogLine) :=
  mkContext (dir c) (timeline c) (WalSegSz c) (source_pguri c) (target_pguri c)
    (origin c) (pgsql c) (previousLSN c) (startpos c) (endpos c) (apply c)
    (reachedEndPos c) (wal c) (sqlFileName c) v.
End Setters.

Definition log_line (level : LogLevel) (fmt : string) (c : StreamApplyContext) :=
  set_log c (log c ++ [(level, fmt)]).

Definition log_debug := log_line LOG_DEBUG.
Definition log_info := log_line LOG_INFO.
Definition log_warn := log_line LOG_WARN.
Definition log_error := log_line LOG_ERROR.
Definition log_fatal := log_line LOG_FATAL.

(* ================================================================= *)
(** ** What ld_apply.c takes from the rest of the program *)

(** ld_stream.h and parson.h: the four tags that prefix the control lines
    of a SQL file, and the parser of their JSON payload. The macros and the
    parser are defined outside ld_apply.c, so the classifier is stated over
    any choice of them. [parseMessageMetadata metadata message json true]
    fills [metadata] from [json] and returns whether it succeeded. *)
Class LdStream : Type := {
  OUTPUT_BEGIN : string;
  OUTPUT_COMMIT : string;
  OUTPUT_SWITCHWAL : string;
  OUTPUT_KEEPALIVE : string;
  JSON_Value : Set;
  json_parse_string : string -> option JSON_Value;
  parseMessageMetadata :
    LogicalMessageMetadata -> string -> option JSON_Value -> bool ->
    bool * LogicalMessageMetadata
}.

(** pgsql.h, on the target connection: which commands the target database
    accepts, given the commands it already received on the connection, and
    what it answers to the two replication origin queries. *)
Class TargetDatabase : Type := {
  pgsql_init_target : string -> bool;
  pgsql_accepts : list PgCommand -> PgCommand -> bool;
  replication_origin_oid : string -> N;
  replication_origin_progress : string -> XLogRecPtr
}.

(* ================================================================= *)
(** ** parseSQLAction *)

Section Classifier.
Context `{LdStream}.

(** [query == ptr] for a pointer [ptr] obtained from [strstr(query, ...)]. *)
Definition at_start (ptr : option nat) : bool :=
  match ptr with
  | Some O => true
  | _ => false
  end.

(** Lines 750 to 776: the action of a tagged line and the pointer
    [message] into [query] (an offset; [None] is NULL). *)
Definition tagged_message (query : string) : StreamAction * option nat :=
  let begin := strstr query OUTPUT_BEGIN in
  let commit := strstr query OUTPUT_COMMIT in
  let switchwal := strstr query OUTPUT_SWITCHWAL in
  let keepalive := strstr query OUTPUT_KEEPALIVE in
  if at_start begin then
    (STREAM_ACTION_BEGIN, Some (0 + String.length OUTPUT_BEGIN))
  else if at_start commit then
    (STREAM_ACTION_COMMIT, Some (0 + String.length OUTPUT_BEGIN))
  else if at_start switchwal then
    (STREAM_ACTION_SWITCH, Some (0 + String.length OUTPUT_SWITCHWAL))
  else if at_start keepalive then
    (STREAM_ACTION_KEEPALIVE, Some (0 + String.length OUTPUT_KEEPALIVE))
  else
    (STREAM_ACTION_UNKNOWN, None).

Definition contains (query needle : string) : bool :=
  match strstr query needle with
  | Some _ => true
  | None => false
  end.

(** Lines 794 to 811: the substring tests, which run on every line that
    got this far and overwrite [action]. *)
Definition dml_action (query : string) (action : StreamAction) : StreamAction :=
  if contains query "INSERT INTO" then STREAM_ACTION_INSERT
  else if contains query "UPDATE " then STREAM_ACTION_UPDATE
  else if contains query "DELETE FROM " then STREAM_ACTION_DELETE
  else if contains query "TRUNCATE " then STREAM_ACTION_TRUNCATE
  else action.

(** Lines 780 to 784 on the string [message] points to. *)
Definition parse_message (action : StreamAction) (message : string)
           (metadata : LogicalMessageMetadata) : bool * LogicalMessageMetadata :=
  let json := json_parse_string message in
  let metadata := set_action action metadata in
  parseMessageMetadata metadata message json true.

(** Lines 740 to 812. *)
Definition parseSQLAction (query : string) (metadata : LogicalMessageMetadata)
  : StreamAction * LogicalMessageMetadata :=
  if String.eqb query "" then (STREAM_ACTION_UNKNOWN, metadata)
  else
    let '(action, message) := tagged_message query in
    match message with
    | Some offset =>
        let '(ok, metadata) :=
          parse_message action (string_at query offset) metadata in
        if negb ok then
          (* [return false;] *)
          (STREAM_ACTION_UNKNOWN, metadata)
        else (dml_action query action, metadata)
    | None => (dml_action query action, metadata)
    end.

(** Section 4.B of the specification, rules 1 to 4 as they are written:
    the kind of the first control tag the line starts with. *)
Definition spec_control_kind (line : string) : option StreamAction :=
  if String.prefix OUTPUT_BEGIN line then Some STREAM_ACTION_BEGIN
  else if String.prefix OUTPUT_COMMIT line then Some STREAM_ACTION_COMMIT
  else if String.prefix OUTPUT_SWITCHWAL line then Some STREAM_ACTION_SWITCH
  else if String.prefix OUTPUT_KEEPALIVE line then Some STREAM_ACTION_KEEPALIVE
  else None.

(** Section 4.B, rule 5 as it is written: the kind of the first DML
    marker the line contains. *)
Definition spec_dml_kind (line : string) : option StreamAction :=
  if contains line "INSERT INTO" then Some STREAM_ACTION_INSERT
  else if contains line "UPDATE " then Some STREAM_ACTION_UPDATE
  else if contains line "DELETE FROM " then Some STREAM_ACTION_DELETE
  else if contains line "TRUNCATE " then Some STREAM_ACTION_TRUNCATE
  else None.

End Classifier.

(* ================================================================= *)
(** ** stream_apply_file *)

(** The format strings of the log calls are written without their inner
    double quotes. *)

Section Replay.
Context `{LdStream} `{TargetDatabase}.

(** A call into pgsql.h on the target connection: the command is sent,
    and the call returns whether the target accepted it. *)
Definition pgsql_send (cmd : PgCommand) (context : StreamApplyContext)
  : bool * StreamApplyContext :=
  let p := pgsql context in
  (pgsql_accepts (sent p) cmd,
   set_pgsql context (mkPGSQL (connectionStatementType p) (sent p ++ [cmd]))).

(** The target accepts these commands one after the other. *)
Fixpoint pgsql_accepts_all (history cmds : list PgCommand) : bool :=
  match cmds with
  | [] => true
  | cmd :: rest =>
      pgsql_accepts history cmd && pgsql_accepts_all (history ++ [cmd]) rest
  end.

Definition pgsql_begin := pgsql_send PgBegin.
Definition pgsql_execute (sql : string) := pgsql_send (PgExecute sql).
Definition pgsql_replication_origin_xact_setup (lsn timestamp : string) :=
  pgsql_send (PgOriginXactSetup lsn timestamp).

(** The result of one turn of the replay loop: what [return false] or
    falling out of the [switch] leaves behind, with the loop's local
    [reachedStartingPosition]. *)
Definition LineResult : Set := bool * (bool * StreamApplyContext).

(** [context->endpos != InvalidXLogRecPtr && context->endpos <= lsn] *)
Definition endpos_at_or_before (context : StreamApplyContext) (lsn : XLogRecPtr) : bool :=
  negb (endpos context =? InvalidXLogRecPtr)%N && (endpos context <=? lsn)%N.

(** [context->endpos != InvalidXLogRecPtr && context->endpos < lsn] *)
Definition endpos_before (context : StreamApplyContext) (lsn : XLogRecPtr) : bool :=
  negb (endpos context =? InvalidXLogRecPtr)%N && (endpos context <? lsn)%N.

(** The body of the [for] loop, lines 322 to 593, for line [i] of
    [count]. Inside the [switch] both [break] and [continue] go to the
    next turn of the loop. *)
Definition apply_line (count i : nat) (sql : string)
           (reachedStartingPosition : bool) (context : StreamApplyContext)
  : LineResult :=
  let '(action, metadata) := parseSQLAction sql metadata_zero in
  match action with
  | STREAM_ACTION_SWITCH =>
      if negb (i =? count - 1)%nat then
        (false, (reachedStartingPosition,
                 log_error "SWITCH command found in line %d, before last line %d" context))
      else
        let context := log_debug "apply: SWITCH from %X/%X to %X/%X" context in
        (true, (reachedStartingPosition, set_previousLSN context (lsn metadata)))

  | STREAM_ACTION_BEGIN =>
      let reachedStartingPosition :=
        if negb reachedStartingPosition
        then (previousLSN context <? lsn metadata)%N
        else reachedStartingPosition in
      let context := log_debug "BEGIN %lld LSN %X/%X @%s, previous LSN %X/%X %s" context in
      if (lsn metadata =? InvalidXLogRecPtr)%N
         || IS_EMPTY_STRING_BUFFER (timestamp metadata) then
        (false, (reachedStartingPosition,
                 log_fatal "Failed to parse BEGIN message: %s" context))
      else if endpos_at_or_before context (lsn metadata) then
        let context := set_reachedEndPos context true in
        (true, (reachedStartingPosition,
                log_info "Apply reached end position %X/%X at %X/%X." context))
      else if negb reachedStartingPosition then
        (true, (reachedStartingPosition, context))
      else
        let '(ok, context) := pgsql_begin context in
        if negb ok then (false, (reachedStartingPosition, context))
        else
          let '(ok, context) :=
            pgsql_replication_origin_xact_setup
              (format_lsn (lsn metadata)) (timestamp metadata) context in
          if negb ok then (false, (reachedStartingPosition, context))
          else (true, (reachedStartingPosition, context))

  | STREAM_ACTION_COMMIT =>
      if negb reachedStartingPosition then
        (true, (reachedStartingPosition, context))
      else
        let context := log_debug "COMMIT %lld LSN %X/%X" context in
        let '(ok, context) := pgsql_execute "COMMIT" context in
        if negb ok then (false, (reachedStartingPosition, context))
        else
          let context := set_previousLSN context (lsn metadata) in
          if endpos_at_or_before context (previousLSN context) then
            let context := set_reachedEndPos context true in
            (true, (reachedStartingPosition,
                    log_info "Applied reached end position %X/%X at %X/%X" context))
          else (true, (reachedStartingPosition, context))

  | STREAM_ACTION_KEEPALIVE =>
      let reachedStartingPosition :=
        if negb reachedStartingPosition
        then (previousLSN context <? lsn metadata)%N
        else reachedStartingPosition in
      let context := log_debug "KEEPALIVE LSN %X/%X @%s, previous LSN %X/%X %s" context in
      if (lsn metadata =? InvalidXLogRecPtr)%N
         || IS_EMPTY_STRING_BUFFER (timestamp metadata) then
        (false, (reachedStartingPosition,
                 log_fatal "Failed to parse KEEPALIVE message: %s" context))
      else if endpos_before context (lsn metadata) then
        let context := set_reachedEndPos context true in
        (true, (reachedStartingPosition,
                log_info "Apply reached end position %X/%X at %X/%X." context))
      else if negb reachedStartingPosition then
        (true, (reachedStartingPosition, context))
      else
        let '(ok, context) := pgsql_begin context in
        if negb ok then (false, (reachedStartingPosition, context))
        else
          let '(ok, context) :=
            pgsql_replication_origin_xact_setup
              (format_lsn (lsn metadata)) (timestamp metadata) context in
          if negb ok then (false, (reachedStartingPosition, context))
          else
            let '(ok, context) := pgsql_execute "COMMIT" context in
            if negb ok then (false, (reachedStartingPosition, context))
            else
              let context := set_previousLSN context (lsn metadata) in
              if endpos_at_or_before context (previousLSN context) then
                let context := set_reachedEndPos context true in
                (true, (reachedStartingPosition,
                        log_info "Applied reached end position %X/%X at %X/%X" context))
              else (true, (reachedStartingPosition, context))

  | STREAM_ACTION_INSERT
  | STREAM_ACTION_UPDATE
  | STREAM_ACTION_DELETE
  | STREAM_ACTION_TRUNCATE =>
      if negb reachedStartingPosition then
        (true, (reachedStartingPosition, context))
      else
        let '(ok, context) := pgsql_execute (chomp_semicolon sql) context in
        if negb ok then (false, (reachedStartingPosition, context))
        else (true, (reachedStartingPosition, context))

  | STREAM_ACTION_UNKNOWN =>
      (false, (reachedStartingPosition,
               log_error "Failed to parse SQL query %s" context))
  end.

(** [for (int i = ...; i < content.count && !context->reachedEndPos; i++)]
    over [lines], the lines from index [i] on. *)
Fixpoint apply_lines (count i : nat) (lines : list string)
         (reachedStartingPosition : bool) (context : StreamApplyContext)
  : LineResult :=
  match lines with
  | [] => (true, (reachedStartingPosition, context))
  | sql :: rest =>
      if reachedEndPos context then (true, (reachedStartingPosition, context))
      else
        let '(ok, (reachedStartingPosition, context)) :=
          apply_line count i sql reachedStartingPosition context in
        if negb ok then (false, (reachedStartingPosition, context))
        else apply_lines count (S i) rest reachedStartingPosition context
  end.

(** The loop of lines 317 to 594 on the lines of one file, with
    [content.count] their number and [reachedStartingPosition] false on
    entry. *)
Definition replay (lines : list string) (context : StreamApplyContext) : LineResult :=
  apply_lines (List.length lines) 0 lines false context.

Definition succeeded (r : LineResult) : bool := fst r.
Definition started (r : LineResult) : bool := fst (snd r).
Definition context_of (r : LineResult) : StreamApplyContext := snd (snd r).

(** The LSN a control line carries, as the replay loop reads it. *)
Definition record_lsn (sql : string) : option XLogRecPtr :=
  let '(action, metadata) := parseSQLAction sql metadata_zero in
  match action with
  | STREAM_ACTION_BEGIN | STREAM_ACTION_COMMIT
  | STREAM_ACTION_SWITCH | STREAM_ACTION_KEEPALIVE => Some (lsn metadata)
  | _ => None
  end.

Fixpoint lsns (lines : list string) : list XLogRecPtr :=
  match lines with
  | [] => []
  | sql :: rest =>
      match record_lsn sql with
      | Some l => l :: lsns rest
      | None => lsns rest
      end
  end.

(** "Lines in non-decreasing LSN order". *)
Definition in_lsn_order (lines : list string) : Prop :=
  Sorted N.le (lsns lines).

(** The LSN of a SWITCH line. *)
Definition switch_lsn (sql : string) : option XLogRecPtr :=
  let '(action, metadata) := parseSQLAction sql metadata_zero in
  match action with
  | STREAM_ACTION_SWITCH => Some (lsn metadata)
  | _ => None
  end.

Fixpoint switch_lsns (lines : list string) : list XLogRecPtr :=
  match lines with
  | [] => []
  | sql :: rest =>
      match switch_lsn sql with
      | Some l => l :: switch_lsns rest
      | None => switch_lsns rest
      end
  end.

(** The test that sets [reachedStartingPosition], on a BEGIN or a
    KEEPALIVE line: [previousLSN < metadata.lsn]. *)
Definition starts_after (previous : XLogRecPtr) (sql : string) : bool :=
  let '(action, metadata) := parseSQLAction sql metadata_zero in
  match action with
  | STREAM_ACTION_BEGIN | STREAM_ACTION_KEEPALIVE => (previous <? lsn metadata)%N
  | _ => false
  end.


(** The replay loop stops in front of this record, without applying it:
    a BEGIN at or after the end position, a KEEPALIVE after it. *)
Definition stops_before (context : StreamApplyContext) (sql : string) : Prop :=
  let '(action, metadata) := parseSQLAction sql metadata_zero in
  match action with
  | STREAM_ACTION_BEGIN => (endpos context <= lsn metadata)%N
  | STREAM_ACTION_KEEPALIVE => (endpos context < lsn metadata)%N
  | _ => False
  end.

(** Lines 310 to 314: the two log calls between the reading of the file
    and the loop. *)
Definition file_opened (context : StreamApplyContext) : StreamApplyContext :=
  let context := log_info "Replaying changes from file %s" context in
  log_debug "Read %d lines in file %s" context.

(** What the monotonicity argument carries along the loop: the SWITCH
    records still to come are not behind [previousLSN], and once the
    starting position is reached no record still to come is. *)
Definition ahead (started : bool) (context : StreamApplyContext)
           (lines : list string) : Prop :=
  Forall (N.le (previousLSN context)) (switch_lsns lines)
  /\ (started = true -> Forall (N.le (previousLSN context)) (lsns lines)).

(** Lines 286 to 601: [stream_apply_file], given what [read_file],
    [countLines] and [splitLines] make of the file named
    [context->sqlFileName]: its lines, or [None] when the file cannot be
    read. The [calloc] of the line array is taken to succeed. *)
Definition stream_apply_file (content : option (list string))
           (context : StreamApplyContext) : bool * StreamApplyContext :=
  match content with
  | None => (false, context)
  | Some lines =>
      let context := file_opened context in
      let '(ok, (_, context)) := replay lines context in
      (ok, context)
  end.

End Replay.

(* ================================================================= *)
(** ** The sentinel client, the origin bootstrap and the driver *)

(** [specs->mode] *)
Inductive StreamMode : Set := STREAM_MODE_UNKNOW | STREAM_MODE_RECEIVE | STREAM_MODE_PREFETCH.

(** The fields of [StreamSpecs] that stream_apply_catchup reads. *)
Module Specs.
Record StreamSpecs : Set := mk {
  mode : StreamMode;
  paths : string;
  source_pguri : string;
  target_pguri : string;
  origin : string;
  endpos : XLogRecPtr
}.
End Specs.
Definition StreamSpecs : Set := Specs.StreamSpecs.

(** What the driver observes of the outside world. The shutdown flags, the
    SQL files written by the prefetch process and the sentinel record change
    under the applier, so each observation is indexed by a clock: the number
    of turns the driver's loops have taken so far. *)
Class Environment : Type := {
  (** signals.h: [asked_to_stop || asked_to_stop_fast || asked_to_quit] *)
  asked_to_stop : nat -> bool;
  (** file_utils.h *)
  file_exists : nat -> string -> bool;
  (** [read_file], [countLines] and [splitLines] on a file name *)
  read_lines : nat -> string -> option (list string);
  (** [pgsql_init] on the source URI *)
  pgsql_init_source : string -> bool;
  (** [pgsql_get_sentinel (&src, &sentinel)]: the result and what it leaves
      in [sentinel] *)
  pgsql_get_sentinel : nat -> CopyDBSentinel -> bool * CopyDBSentinel;
  (** [pgsql_sync_sentinel_apply (&src, replay_lsn, &sentinel)] *)
  pgsql_sync_sentinel_apply :
    nat -> XLogRecPtr -> CopyDBSentinel -> bool * CopyDBSentinel;
  (** [stream_read_context]: the timeline and the WAL segment size *)
  stream_read_context : string -> option (N * N)
}.

(** Modelled from the spec: [XLByteToSeg] and [XLogFileName] are macros of
    PostgreSQL's access/xlog_internal.h, which is not among the sources;
    section 4.A gives the segment of an LSN as [lsn / segSz] and the WAL name
    as 8 hex digits each of the timeline, of
    [segno / (0x100000000 / segSz)] and of [segno mod (0x100000000 / segSz)]. *)
Definition XLByteToSeg (xlrp : XLogRecPtr) (wal_segsz_bytes : N) : N :=
  (xlrp / wal_segsz_bytes)%N.

Definition XLogSegmentsPerXLogId (wal_segsz_bytes : N) : N :=
  (4294967296 / wal_segsz_bytes)%N.

Definition XLogFileName (tli : N) (logSegNo : N) (wal_segsz_bytes : N) : string :=
  format_08X (uint32 tli)
  ++ format_08X (uint32 (logSegNo / XLogSegmentsPerXLogId wal_segsz_bytes))
  ++ format_08X (uint32 (logSegNo mod XLogSegmentsPerXLogId wal_segsz_bytes)).

(** Lines 715 to 733. The [sformat] into [context->sqlFileName] is taken
    not to truncate. *)
Definition computeSQLFileName (context : StreamApplyContext)
  : bool * StreamApplyContext :=
  let segno := XLByteToSeg (previousLSN context) (WalSegSz context) in
  let context :=
    set_wal context (XLogFileName (timeline context) segno (WalSegSz context)) in
  let context :=
    set_sqlFileName context (dir context ++ "/" ++ wal context ++ ".sql") in
  let context := log_debug "computeSQLFileName: %X/%X %s" context in
  (true, context).

(** The warning of setupReplicationOrigin. *)
Definition endpos_warning : LogLine :=
  (LOG_WARN,
   "Option --endpos %X/%X is used, even when the pgcopydb sentinel endpos is set to %X/%X").

Section Driver.
Context `{LdStream} `{TargetDatabase} `{Environment}.

(** Lines 201 to 248: the [while (!sentinel.apply)] loop; [None] when
    [fuel] turns were not enough to leave it. The result carries the
    clock. *)
Fixpoint wait_for_sentinel_loop (fuel now : nat) (firstLoop : bool)
         (sentinel : CopyDBSentinel) (context : StreamApplyContext)
  : option (bool * (nat * StreamApplyContext)) :=
  if Sentinel.apply sentinel then
    Some (true, (now, log_info "The pgcopydb sentinel has enabled applying changes" context))
  else
    match fuel with
    | O => None
    | S fuel' =>
        if asked_to_stop now then
          Some (false, (now,
                log_info "Apply process received a shutdown signal while waiting for apply mode, quitting now" context))
        else
          let '(ok, sentinel) := pgsql_get_sentinel now sentinel in
          if negb ok then
            let context :=
              log_warn "Retrying to fetch pgcopydb sentinel values in %ds" context in
            wait_for_sentinel_loop fuel' (S now) firstLoop sentinel context
          else
            let context := log_debug "startpos %X/%X endpos %X/%X apply %s" context in
            if Sentinel.apply sentinel then
              let context := set_startpos context (Sentinel.startpos sentinel) in
              let context := set_endpos context (Sentinel.endpos sentinel) in
              let context := set_apply context (Sentinel.apply sentinel) in
              Some (true, (now,
                    log_info "The pgcopydb sentinel has enabled applying changes" context))
            else
              let context :=
                if firstLoop
                then log_info "Waiting until the pgcopydb sentinel apply is enabled" context
                else context in
              wait_for_sentinel_loop fuel' (S now) false sentinel context
    end.

(** Lines 188 to 249. *)
Definition stream_apply_wait_for_sentinel (fuel now : nat) (specs : StreamSpecs)
           (context : StreamApplyContext)
  : option (bool * (nat * StreamApplyContext)) :=
  if negb (pgsql_init_source (Specs.source_pguri specs)) then
    Some (false, (now, context))
  else wait_for_sentinel_loop fuel now true Sentinel.zero context.

(** Lines 257 to 279. *)
Definition stream_apply_sync_sentinel (now : nat) (context : StreamApplyContext)
  : bool * StreamApplyContext :=
  let sentinel := Sentinel.zero in
  if negb (pgsql_init_source (source_pguri context)) then (false, context)
  else
    let '(ok, sentinel) :=
      pgsql_sync_sentinel_apply now (previousLSN context) sentinel in
    let context :=
      if negb ok
      then log_warn "Failed to sync progress with the pgcopydb sentinel" context
      else context in
    let context := set_apply context (Sentinel.apply sentinel) in
    let context := set_endpos context (Sentinel.endpos sentinel) in
    let context := set_startpos context (Sentinel.startpos sentinel) in
    (true, context).

Definition pgsql_finish (context : StreamApplyContext) : StreamApplyContext :=
  snd (pgsql_send PgFinish context).

(** Lines 612 to 708. The parameters carry a trailing underscore where a
    field of the context has the same name. [nodeName] points to
    [context->origin], so it reads what the [strlcpy] of [origin] has put
    there. The [strlcpy] calls are taken not to truncate. *)
Definition setupReplicationOrigin (context : StreamApplyContext)
           (paths_ source_pguri_ target_pguri_ origin_ : string)
           (endpos_ : XLogRecPtr) (apply_ : bool)
  : bool * StreamApplyContext :=
  let context :=
    if negb (endpos_ =? InvalidXLogRecPtr)%N then
      let context :=
        if negb (endpos context =? InvalidXLogRecPtr)%N
        then log_warn "Option --endpos %X/%X is used, even when the pgcopydb sentinel endpos is set to %X/%X" context
        else context in
      set_endpos context endpos_
    else context in
  let context := set_paths context paths_ in
  let context := set_apply context apply_ in
  let context := set_source_pguri context source_pguri_ in
  let context := set_target_pguri context target_pguri_ in
  let context := set_origin context origin_ in
  let nodeName := origin context in
  if negb (pgsql_init_target (target_pguri context)) then (false, context)
  else
    let context :=
      set_pgsql context (mkPGSQL PGSQL_CONNECTION_MULTI_STATEMENT (sent (pgsql context))) in
    let '(ok, context) := pgsql_send (PgOriginOid nodeName) context in
    if negb ok then (false, context)
    else
      let oid := replication_origin_oid nodeName in
      let context := log_debug "setupReplicationOrigin: oid == %u" context in
      if (oid =? 0)%N then
        let context :=
          log_error "Failed to fetch progress for replication origin %s: replication origin not found on target database" context in
        (false, pgsql_finish context)
      else
        let '(ok, context) := pgsql_send (PgOriginProgress nodeName) context in
        if negb ok then (false, context)
        else
          let context :=
            set_previousLSN context (replication_origin_progress nodeName) in
          let '(ok, context) := computeSQLFileName context in
          if negb ok then (false, context)
          else
            let context :=
              log_debug "setupReplicationOrigin: replication origin %s found at %X/%X, expected in file %s" context in
            let '(ok, context) := pgsql_send (PgOriginSessionSetup nodeName) context in
            if negb ok then (false, context)
            else (true, context).

(** Lines 139 to 148: the end position check that follows the sync. *)
Definition check_endpos_after_sync (context : StreamApplyContext) : StreamApplyContext :=
  if negb (reachedEndPos context)
     && negb (endpos context =? InvalidXLogRecPtr)%N
     && (endpos context <=? previousLSN context)%N
  then
    let context := set_reachedEndPos context true in
    log_info "Applied reached end position %X/%X at %X/%X" context
  else context.

(** Lines 95 to 174: the [for (;;)] loop of stream_apply_catchup; [None]
    when [fuel] turns were not enough to leave it. *)
Fixpoint catchup_loop (fuel now : nat) (context : StreamApplyContext)
  : option (bool * StreamApplyContext) :=
  match fuel with
  | O => None
  | S fuel' =>
      let currentSQLFileName := sqlFileName context in
      if asked_to_stop now then Some (true, pgsql_finish context)
      else if negb (file_exists now (sqlFileName context)) then
        let context := log_debug "File %s does not exists yet, retrying in %dms" context in
        catchup_loop fuel' (S now) context
      else
        let '(ok, context) :=
          stream_apply_file (read_lines now (sqlFileName context)) context in
        if negb ok then Some (false, context)
        else
          let '(_, context) := stream_apply_sync_sentinel now context in
          let context := check_endpos_after_sync context in
          if reachedEndPos context then Some (true, pgsql_finish context)
          else
            let '(ok, context) := computeSQLFileName context in
            if negb ok then Some (false, context)
            else
              let context :=
                if String.eqb (sqlFileName context) currentSQLFileName
                then log_debug "Reached end of file %s at %X/%X." context
                else context in
              catchup_loop fuel' (S now) context
  end.

(** Lines 39 to 180. *)
Definition stream_apply_catchup (fuel : nat) (specs : StreamSpecs)
  : option (bool * StreamApplyContext) :=
  let context := context_zero in
  let waited :=
    match Specs.mode specs with
    | STREAM_MODE_PREFETCH => stream_apply_wait_for_sentinel fuel 0 specs context
    | _ => Some (true, (0, context))
    end in
  match waited with
  | None => None
  | Some (false, (_, context)) => Some (false, context)
  | Some (true, (now, context)) =>
      match stream_read_context (Specs.paths specs) with
      | None =>
          Some (false,
                log_error "Failed to read the streaming context information from the source database, see above for details" context)
      | Some (tli, segsz) =>
          let context := set_system context tli segsz in
          let context := log_debug "Source database wal_segment_size is %u" context in
          let context := log_debug "Source database timeline is %d" context in
          let '(ok, context) :=
            setupReplicationOrigin context (Specs.paths specs)
              (Specs.source_pguri specs) (Specs.target_pguri specs)
              (Specs.origin specs) (Specs.endpos specs) (apply context) in
          if negb ok then
            Some (false,
                  log_error "Failed to setup replication origin on the target database" context)
          else
            let context := log_info "Catching up from LSN %X/%X in %s" context in
            let context :=
              if negb (endpos context =? InvalidXLogRecPtr)%N
              then log_info "Stopping at endpos LSN %X/%X" context
              else context in
            catchup_loop fuel now context
      end
  end.

End Driver.

(* ================================================================= *)
(** ** An instance of the producer's format and of the environment *)

Module Producer.

(** The double quote character. *)
Definition dquote : ascii := ascii_of_nat 34.

Definition quoted (s : string) : string :=
  String dquote s ++ String dquote "".

Inductive JsonAtom : Set :=
| JsonString (s : string)
| JsonNumber (n : N).

(** A JSON object whose members are strings and unsigned integers. *)
Definition JsonObject : Set := list (string * JsonAtom).

Definition is_space (c : ascii) : bool :=
  match nat_of_ascii c with
  | 32 | 9 | 10 | 13 => true
  | _ => false
  end.

Fixpoint skip_spaces (s : string) : string :=
  match s with
  | String c rest => if is_space c then skip_spaces rest else s
  | EmptyString => s
  end.

(** The characters up to the closing quote, and what follows it. *)
Fixpoint read_string (s : string) : option (string * string) :=
  match s with
  | EmptyString => None
  | String c rest =>
      if Ascii.eqb c dquote then Some ("", rest)
      else
        match read_string rest with
        | Some (str, rest') => Some (String c str, rest')
        | None => None
        end
  end.

Definition digit_value (c : ascii) : option N :=
  let n := N_of_ascii c in
  if (48 <=? n)%N && (n <=? 57)%N then Some (n - 48)%N else None.

Definition hex_value (c : ascii) : option N :=
  let n := N_of_ascii c in
  if (48 <=? n)%N && (n <=? 57)%N then Some (n - 48)%N
  else if (65 <=? n)%N && (n <=? 70)%N then Some (n - 55)%N
  else if (97 <=? n)%N && (n <=? 102)%N then Some (n - 87)%N
  else None.

Fixpoint read_digits (s : string) (acc : N) : N * string :=
  match s with
  | String c rest =>
      match digit_value c with
      | Some d => read_digits rest (10 * acc + d)%N
      | None => (acc, s)
      end
  | EmptyString => (acc, s)
  end.

Definition read_atom (s : string) : option (JsonAtom * string) :=
  match s with
  | String c rest =>
      if Ascii.eqb c dquote then
        match read_string rest with
        | Some (str, rest') => Some (JsonString str, rest')
        | None => None
        end
      else
        match digit_value c with
        | Some _ => let '(n, rest') := read_digits s 0 in Some (JsonNumber n, rest')
        | None => None
        end
  | EmptyString => None
  end.

(** The members of an object, from the first key to the closing brace. *)
Fixpoint read_members (fuel : nat) (s : string) (acc : JsonObject)
  : option JsonObject :=
  match fuel with
  | O => None
  | S fuel' =>
      match skip_spaces s with
      | String c rest =>
          if Ascii.eqb c dquote then
            match read_string rest with
            | Some (key, rest) =>
                match skip_spaces rest with
                | String ":" rest =>
                    match read_atom (skip_spaces rest) with
                    | Some (atom, rest) =>
                        match skip_spaces rest with
                        | String "," rest =>
                            read_members fuel' rest (acc ++ [(key, atom)])%list
                        | String "}" rest =>
                            match skip_spaces rest with
                            | EmptyString => Some (acc ++ [(key, atom)])%list
                            | _ => None
                            end
                        | _ => None
                        end
                    | None => None
                    end
                | _ => None
                end
            | None => None
            end
          else None
      | EmptyString => None
      end
  end.

(** Modelled from the spec: [json_parse_string] belongs to parson, which
    is not among the sources; section 6 has every control line carry a JSON
    object with the members lsn, xid and timestamp. Leading white space
    is skipped, and anything but one object of strings and numbers is
    refused. *)
Definition json_parse_string (message : string) : option JsonObject :=
  match skip_spaces message with
  | String "{" rest => read_members (String.length rest) rest []
  | _ => None
  end.

Fixpoint json_object_get (obj : JsonObject) (name : string) : option JsonAtom :=
  match obj with
  | [] => None
  | (key, atom) :: rest =>
      if String.eqb key name then Some atom else json_object_get rest name
  end.

Fixpoint read_hex (s : string) (acc : N) : option N :=
  match s with
  | EmptyString => Some acc
  | String c rest =>
      match hex_value c with
      | Some d => read_hex rest (16 * acc + d)%N
      | None => None
      end
  end.

(** Modelled from the spec: [parseLSN] is defined in parsing_utils.c, which
    is not among the sources; section 3 renders an LSN as HI/LO, each half
    in hexadecimal. *)
Definition parseLSN (str : string) : option XLogRecPtr :=
  match String.index 0 "/" str with
  | Some k =>
      let hi := String.substring 0 k str in
      let lo := String.substring (S k) (String.length str - S k) str in
      if String.eqb hi "" || String.eqb lo "" then None
      else
        match read_hex hi 0, read_hex lo 0 with
        | Some h, Some l => Some (N.shiftl h 32 + l)%N
        | _, _ => None
        end
  | None => None
  end.

(** Modelled from the spec: [parseMessageMetadata] is defined in
    ld_stream.c, which is not among the sources; section 4.B has the JSON
    payload supply lsn (hexadecimal HI/LO), xid (integer) and timestamp.
    A payload that is no JSON object, or whose lsn does not read as an
    LSN, is an error. *)
Definition parseMessageMetadata (metadata : LogicalMessageMetadata)
           (message : string) (json : option JsonObject) (skipAction : bool)
  : bool * LogicalMessageMetadata :=
  match json with
  | None => (false, metadata)
  | Some obj =>
      let metadata :=
        match json_object_get obj "xid" with
        | Some (JsonNumber n) =>
            mkMetadata (action metadata) n (lsn metadata) (timestamp metadata)
        | _ => metadata
        end in
      let parsed :=
        match json_object_get obj "lsn" with
        | Some (JsonString str) =>
            match parseLSN str with
            | Some l =>
                Some (mkMetadata (action metadata) (xid metadata) l (timestamp metadata))
            | None => None
            end
        | _ => Some metadata
        end in
      match parsed with
      | None => (false, metadata)
      | Some metadata =>
          match json_object_get obj "timestamp" with
          | Some (JsonString ts) =>
              (true, mkMetadata (action metadata) (xid metadata) (lsn metadata) ts)
          | _ => (true, metadata)
          end
      end
  end.

(** Modelled from the spec: the four tag macros are defined in
    ld_stream.h, which is not among the sources; section 6 names them the
    BEGIN, COMMIT, SWITCHWAL and KEEPALIVE tags and leaves the exact
    strings to the contract with the producer. These are the strings
    pgcopydb's transform stage writes, each followed by the JSON object. *)
Definition ld_stream : LdStream :=
  Build_LdStream "BEGIN; -- " "COMMIT; -- " "-- SWITCH WAL " "-- KEEPALIVE "
                 JsonObject json_parse_string parseMessageMetadata.

(** The JSON object the producer writes after a tag. *)
Definition payload (xid lsn timestamp : string) : string :=
  "{" ++ quoted "xid" ++ ":" ++ xid ++ ","
      ++ quoted "lsn" ++ ":" ++ quoted lsn ++ ","
      ++ quoted "timestamp" ++ ":" ++ quoted timestamp ++ "}".

Definition begin_line (xid lsn timestamp : string) : string :=
  "BEGIN; -- " ++ payload xid lsn timestamp.
Definition commit_line (xid lsn timestamp : string) : string :=
  "COMMIT; -- " ++ payload xid lsn timestamp.
Definition switchwal_line (lsn : string) : string :=
  "-- SWITCH WAL " ++ "{" ++ quoted "lsn" ++ ":" ++ quoted lsn ++ "}".
Definition keepalive_line (lsn timestamp : string) : string :=
  "-- KEEPALIVE " ++ "{" ++ quoted "lsn" ++ ":" ++ quoted lsn ++ ","
                  ++ quoted "timestamp" ++ ":" ++ quoted timestamp ++ "}".

(** A target database that accepts every command and knows every origin. *)
Definition willing_target (progress : XLogRecPtr) : TargetDatabase := {|
  pgsql_init_target := fun _ => true;
  pgsql_accepts := fun _ _ => true;
  replication_origin_oid := fun _ => 1%N;
  replication_origin_progress := fun _ => progress
|}.

(** An environment that does not change: the files are there from the
    start, the source database either answers every sentinel query with
    [answer] or, for [None], fails every such query and leaves the
    caller's [sentinel] as it is; a shutdown is asked for from turn
    [stop_at] on. *)
Definition steady_environment (files : string -> option (list string))
           (answer : option CopyDBSentinel) (stop_at : nat) : Environment := {|
  asked_to_stop := fun now => (stop_at <=? now)%nat;
  file_exists := fun _ name =>
                   match files name with Some _ => true | None => false end;
  read_lines := fun _ name => files name;
  pgsql_init_source := fun _ => true;
  pgsql_get_sentinel := fun _ sentinel =>
                          match answer with
                          | Some a => (true, a)
                          | None => (false, sentinel)
                          end;
  pgsql_sync_sentinel_apply := fun _ _ sentinel =>
                                 match answer with
                                 | Some a => (true, a)
                                 | None => (false, sentinel)
                                 end;
  stream_read_context := fun _ => Some (1%N, 16777216%N)
|}.

End Producer.

(** The files and settings of the scenarios of section 8. *)
Module Scenario.
Import Producer.

Definition ts : string := "2024-01-01 00:00:00+00".

(** Scenario 2: one transaction, then the switch to the next segment. *)
Definition single_transaction : list string :=
  [begin_line "42" "0/A0000028" ts;
   "INSERT INTO t VALUES (1);";
   commit_line "42" "0/A0000060" ts;
   switchwal_line "0/A1000000"].

(** A transaction that begins past 0/A0000050. *)
Definition late_transaction : list string :=
  [begin_line "43" "0/A0000060" ts;
   "INSERT INTO t VALUES (2);";
   commit_line "43" "0/A0000080" ts].

(** Scenario 5: two transactions. *)
Definition two_transactions : list string :=
  [begin_line "42" "0/A0000028" ts;
   "INSERT INTO t VALUES (1);";
   commit_line "42" "0/A0000060" ts;
   begin_line "43" "0/A0000080" ts;
   "INSERT INTO t VALUES (2);";
   commit_line "43" "0/A0000090" ts].

(** The directory holds one file, for the segment of 0/A0000000. *)
Definition directory (lines : list string) (name : string) : option (list string) :=
  if String.eqb name "/cdc/0000000100000000000000A0.sql" then Some lines else None.

Definition specs (endpos : XLogRecPtr) : StreamSpecs :=
  Specs.mk STREAM_MODE_RECEIVE "/cdc" "postgres://source" "postgres://target"
           "pgcopydb" endpos.

(** The target accepts every command; the origin is at 0/A0000000. *)
Definition target : TargetDatabase := willing_target 0xA0000000.

(** A context as the bootstrap leaves it, for a replay on its own. *)
Definition context_at (previous endpos_ : XLogRecPtr) : StreamApplyContext :=
  set_endpos (set_previousLSN context_zero previous) endpos_.

End Scenario.

(* ================================================================= *)
(** ** What the further properties are stated with *)

(** Every origin setup among [cmds] comes right after a begin; [previous]
    is the command sent before [cmds], if any. *)
Fixpoint setups_follow_begin (previous : option PgCommand) (cmds : list PgCommand)
  : bool :=
  match cmds with
  | [] => true
  | cmd :: rest =>
      match cmd, previous with
      | PgOriginXactSetup _ _, Some PgBegin => setups_follow_begin (Some cmd) rest
      | PgOriginXactSetup _ _, _ => false
      | _, _ => setups_follow_begin (Some cmd) rest
      end
  end.

(** A BEGIN or KEEPALIVE record without an LSN or without a timestamp. *)
Definition malformed (metadata : LogicalMessageMetadata) : bool :=
  (lsn metadata =? InvalidXLogRecPtr)%N || IS_EMPTY_STRING_BUFFER (timestamp metadata).

(** What the replay of a file leaves alone in the context, and what it
    only adds to. *)
Definition replay_keeps (context context' : StreamApplyContext) : Prop :=
  dir context' = dir context
  /\ timeline context' = timeline context
  /\ WalSegSz context' = WalSegSz context
  /\ source_pguri context' = source_pguri context
  /\ target_pguri context' = target_pguri context
  /\ origin context' = origin context
  /\ connectionStatementType (pgsql context') = connectionStatementType (pgsql context)
  /\ startpos context' = startpos context
  /\ endpos context' = endpos context
  /\ apply context' = apply context
  /\ wal context' = wal context
  /\ sqlFileName context' = sqlFileName context
  /\ (reachedEndPos context = true -> reachedEndPos context' = true)
  /\ (exists new, sent (pgsql context') = (sent (pgsql context) ++ new)%list)
  /\ (exists lines, log context' = (log context ++ lines)%list).

(** Why a turn of the replay loop returns false on line [i] of [count]:
    the line is of no known kind, it is a SWITCH record that is not on the
    last line, it is a malformed BEGIN or KEEPALIVE record (and then nothing
    was sent), or the target refused the last command sent. *)
Definition failure_cause `{LdStream} `{TargetDatabase} (count i : nat) (sql : string)
           (context context' : StreamApplyContext) : Prop :=
  let '(action, metadata) := parseSQLAction sql metadata_zero in
  (action = STREAM_ACTION_UNKNOWN
   /\ sent (pgsql context') = sent (pgsql context))
  \/ (action = STREAM_ACTION_SWITCH /\ i <> count - 1
      /\ sent (pgsql context') = sent (pgsql context))
  \/ ((action = STREAM_ACTION_BEGIN \/ action = STREAM_ACTION_KEEPALIVE)
      /\ malformed metadata = true
      /\ sent (pgsql context') = sent (pgsql context))
  \/ (exists history cmd,
        sent (pgsql context') = (history ++ [cmd])%list
        /\ pgsql_accepts history cmd = false).

(** The four kinds of DML lines. *)
Definition is_dml (action : StreamAction) : bool :=
  match action with
  | STREAM_ACTION_INSERT | STREAM_ACTION_UPDATE
  | STREAM_ACTION_DELETE | STREAM_ACTION_TRUNCATE => true
  | _ => false
  end.

(** The last line of a complete transaction: a COMMIT record, or a
    KEEPALIVE record, which is a transaction of its own. *)
Definition closes_transaction `{LdStream} (sql : string) : bool :=
  match fst (parseSQLAction sql metadata_zero) with
  | STREAM_ACTION_COMMIT | STREAM_ACTION_KEEPALIVE => true
  | _ => false
  end.

(** A line that the replay loop gets past without failing and without
    reaching [limit] as the end position, whether it applies the line or
    skips it; SWITCH lines are left out. *)
Definition passable `{LdStream} (limit : XLogRecPtr) (sql : string) : bool :=
  let '(action, metadata) := parseSQLAction sql metadata_zero in
  match action with
  | STREAM_ACTION_UNKNOWN | STREAM_ACTION_SWITCH => false
  | STREAM_ACTION_BEGIN =>
      negb (malformed metadata)
      && negb (negb (limit =? InvalidXLogRecPtr)%N && (limit <=? lsn metadata)%N)
  | STREAM_ACTION_KEEPALIVE =>
      negb (malformed metadata)
      && negb (negb (limit =? InvalidXLogRecPtr)%N && (limit <? lsn metadata)%N)
  | _ => true
  end.

(** The fields of the context that the sentinel governs are as they were. *)
Definition sentinel_fields_kept (context context' : StreamApplyContext) : Prop :=
  startpos context' = startpos context
  /\ endpos context' = endpos context
  /\ apply context' = apply context.

(** What the wait for the sentinel never touches: the target connection
    and the replay position. *)
Definition wait_keeps (context context' : StreamApplyContext) : Prop :=
  pgsql context' = pgsql context
  /\ previousLSN context' = previousLSN context
  /\ reachedEndPos context' = reachedEndPos context
  /\ sqlFileName context' = sqlFileName context.

(** The name computeSQLFileName gives to the file that holds the position
    [previousLSN] of the context. *)
Definition file_of_position (context : StreamApplyContext) : string :=
  dir context ++ "/"
  ++ XLogFileName (timeline context)
                  (XLByteToSeg (previousLSN context) (WalSegSz context))
                  (WalSegSz context)
  ++ ".sql".

(** What the driver's loop leaves alone in the context: where the files
    are and how they are named, and the commands already sent. *)
Definition loop_keeps (context context' : StreamApplyContext) : Prop :=
  dir context' = dir context
  /\ timeline context' = timeline context
  /\ WalSegSz context' = WalSegSz context
  /\ origin context' = origin context
  /\ exists new, sent (pgsql context') = (sent (pgsql context) ++ new)%list.

(** Targets and files that make the applier fail. *)
Module Faults.
Import Producer.

(** A target that takes the bootstrap and the transaction control, and
    refuses every command for which [refused] holds. *)
Definition reluctant_target (refused : PgCommand -> bool) : TargetDatabase := {|
  pgsql_init_target := fun _ => true;
  pgsql_accepts := fun _ cmd => negb (refused cmd);
  replication_origin_oid := fun _ => 1%N;
  replication_origin_progress := fun _ => 0xA0000000%N
|}.

Definition is_insert (cmd : PgCommand) : bool :=
  match cmd with
  | PgExecute sql => String.prefix "INSERT" sql
  | _ => false
  end.

(** A target on which the replication origin was never created. *)
Definition target_without_origin : TargetDatabase := {|
  pgsql_init_target := fun _ => true;
  pgsql_accepts := fun _ _ => true;
  replication_origin_oid := fun _ => 0%N;
  replication_origin_progress := fun _ => 0%N
|}.

(** A context as the bootstrap leaves it for the directory /cdc, timeline
    1 and segments of 16 MB, at position [previous]. *)
Definition context_in_cdc (previous endpos_ : XLogRecPtr) : StreamApplyContext :=
  snd (computeSQLFileName
         (set_system (set_paths (Scenario.context_at previous endpos_) "/cdc")
                     1 16777216)).

(** Specifications for the prefetch mode, where the applier waits for the
    sentinel. *)
Definition prefetch_specs (endpos : XLogRecPtr) : StreamSpecs :=
  Specs.mk STREAM_MODE_PREFETCH "/cdc" "postgres://source" "postgres://target"
           "pgcopydb" endpos.

End Faults.

(* ================================================================= *)
(** * Properties *)

Local Open Scope list_scope.

(** ** Tactics *)

(** Case analysis on the first conditional in sight. *)
Ltac break_if :=
  match goal with
  | H : context [ if ?b then _ else _ ] |- _ => destruct b eqn:?
  | |- context [ if ?b then _ else _ ] => destruct b eqn:?
  end.

(** Case analysis on one turn of the loop, from
    [E : apply_line ... = (ok, (started, context'))]. *)
Ltac line_cases E :=
  match type of E with
  | apply_line _ _ _ ?s _ = _ => try (is_var s; destruct s)
  end;
  unfold apply_line in E;
  match type of E with
  | context [ parseSQLAction ?sql ?m ] =>
      let a := fresh "action" in
      let md := fresh "metadata" in
      let P := fresh "Hparse" in
      destruct (parseSQLAction sql m) as [a md] eqn:P; destruct a
  end;
  unfold pgsql_begin, pgsql_execute, pgsql_replication_origin_xact_setup,
    pgsql_send, endpos_at_or_before, endpos_before in E;
  cbn [fst snd negb] in E;
  repeat break_if;
  inversion E; subst; clear E; cbn in *.

(** Boolean comparisons of positions in the hypotheses, as propositions. *)
Ltac lsn_facts :=
  unfold InvalidXLogRecPtr in *;
  repeat match goal with
         | A : context [ (?a =? ?b)%N ] |- _ => destruct (N.eqb_spec a b); cbn in A
         | A : context [ (?a <=? ?b)%N ] |- _ => destruct (N.leb_spec a b); cbn in A
         | A : context [ (?a <? ?b)%N ] |- _ => destruct (N.ltb_spec a b); cbn in A
         end.

(** The same for the comparisons in the goal. *)
Ltac lsn_goal :=
  unfold InvalidXLogRecPtr in *;
  repeat match goal with
         | |- context [ (?a =? ?b)%N ] => destruct (N.eqb_spec a b)
         | |- context [ (?a <=? ?b)%N ] => destruct (N.leb_spec a b)
         | |- context [ (?a <? ?b)%N ] => destruct (N.ltb_spec a b)
         end.

(* ================================================================= *)
(** ** Properties of the classifier *)

Section ClassifierFacts.
Context `{LdStream}.

Lemma at_start_strstr (query tag : string) :
  at_start (strstr query tag) = String.prefix tag query.
Proof.
  unfold strstr. destruct query as [|c query].
  - destruct tag; reflexivity.
  - change (String.index 0 tag (String c query))
      with (if String.prefix tag (String c query) then Some 0
            else match String.index 0 tag query with
                 | Some n => Some (S n)
                 | None => None
                 end).
    destruct (String.prefix tag (String c query)); [reflexivity|].
    destruct (String.index 0 tag query); reflexivity.
Qed.

Lemma tagged_message_spec (query : string) :
  tagged_message query =
  match spec_control_kind query with
  | Some STREAM_ACTION_BEGIN =>
      (STREAM_ACTION_BEGIN, Some (String.length OUTPUT_BEGIN))
  | Some STREAM_ACTION_COMMIT =>
      (STREAM_ACTION_COMMIT, Some (String.length OUTPUT_BEGIN))
  | Some STREAM_ACTION_SWITCH =>
      (STREAM_ACTION_SWITCH, Some (String.length OUTPUT_SWITCHWAL))
  | Some STREAM_ACTION_KEEPALIVE =>
      (STREAM_ACTION_KEEPALIVE, Some (String.length OUTPUT_KEEPALIVE))
  | _ => (STREAM_ACTION_UNKNOWN, None)
  end.
Proof.
  unfold tagged_message, spec_control_kind.
  rewrite !at_start_strstr.
  destruct (String.prefix OUTPUT_BEGIN query); [reflexivity|].
  destruct (String.prefix OUTPUT_COMMIT query); [reflexivity|].
  destruct (String.prefix OUTPUT_SWITCHWAL query); [reflexivity|].
  destruct (String.prefix OUTPUT_KEEPALIVE query); reflexivity.
Qed.

Lemma dml_action_spec (query : string) (action : StreamAction) :
  dml_action query action =
  match spec_dml_kind query with
  | Some kind => kind
  | None => action
  end.
Proof.
  unfold dml_action, spec_dml_kind.
  repeat match goal with
         | |- context [ if ?b then _ else _ ] => destruct b; try reflexivity
         end.
Qed.

Lemma prefix_length (tag query : string) :
  String.prefix tag query = true -> String.length tag <= String.length query.
Proof.
  revert query. induction tag as [|a tag IH]; intros query Hp; simpl.
  - lia.
  - destruct query as [|b query]; simpl in Hp; [discriminate|].
    destruct (Ascii.ascii_dec a b); [|discriminate].
    apply IH in Hp. simpl. lia.
Qed.

(** [string_at s n] is [s] without its first [n] characters. *)
Lemma string_at_split (s : string) (n : nat) :
  n <= String.length s ->
  s = (String.substring 0 n s ++ string_at s n)%string
  /\ String.length (string_at s n) = String.length s - n.
Proof.
  revert s. induction n as [|n IH]; intros s Hn.
  - destruct s; simpl; split; try reflexivity; lia.
  - destruct s as [|c s]; simpl in *; [lia|].
    destruct (IH s) as [E L]; [lia|].
    split; [f_equal; exact E | exact L].
Qed.

(** C5 (amended). A non-empty line that starts with a control tag gets
    the kind of the first such tag, in the order BEGIN, COMMIT, SWITCHWAL,
    KEEPALIVE, when its payload parses and it contains none of the DML
    markers; when the payload does not parse the classifier returns
    [false], the UNKNOWN kind. A line that starts with no control tag gets
    the kind of the first DML marker it contains, in the order INSERT INTO,
    UPDATE, DELETE FROM, TRUNCATE, and UNKNOWN when it contains none. *)
Theorem parseSQLAction_precedence (query : string) (metadata : LogicalMessageMetadata) :
  query <> "" ->
  match spec_control_kind query with
  | Some kind =>
      exists offset,
        tagged_message query = (kind, Some offset) /\
        let '(ok, metadata') :=
          parse_message kind (string_at query offset) metadata in
        if ok
        then spec_dml_kind query = None ->
             parseSQLAction query metadata = (kind, metadata')
        else parseSQLAction query metadata = (STREAM_ACTION_UNKNOWN, metadata')
  | None =>
      parseSQLAction query metadata =
      (match spec_dml_kind query with
       | Some kind => kind
       | None => STREAM_ACTION_UNKNOWN
       end, metadata)
  end.
Proof.
  intros Hne. apply String.eqb_neq in Hne.
  unfold parseSQLAction. rewrite Hne, tagged_message_spec.
  unfold spec_control_kind.
  destruct (String.prefix OUTPUT_BEGIN query);
    [|destruct (String.prefix OUTPUT_COMMIT query);
      [|destruct (String.prefix OUTPUT_SWITCHWAL query);
        [|destruct (String.prefix OUTPUT_KEEPALIVE query)]]].
  1-4: eexists; split; [reflexivity|];
    destruct (parse_message _ _ _) as [[|] metadata']; simpl;
    [intros Hd; rewrite dml_action_spec, Hd; reflexivity | reflexivity].
  rewrite dml_action_spec. reflexivity.
Qed.

(** C6. On a non-empty line that starts with the COMMIT tag, [message]
    is [strlen (OUTPUT_BEGIN)] bytes into the line, and what is parsed as
    the JSON payload is the line without its first [strlen (OUTPUT_BEGIN)]
    characters; where the BEGIN tag is the shorter one this is not the
    line without the COMMIT tag. *)
Theorem parseSQLAction_commit_offset (query : string) (metadata : LogicalMessageMetadata) :
  query <> "" ->
  String.prefix OUTPUT_COMMIT query = true ->
  let payload := string_at query (String.length OUTPUT_BEGIN) in
  exists action,
    tagged_message query = (action, Some (String.length OUTPUT_BEGIN))
    /\ (String.prefix OUTPUT_BEGIN query = false -> action = STREAM_ACTION_COMMIT)
    /\ parseSQLAction query metadata =
       (let '(ok, metadata') := parse_message action payload metadata in
        if ok then (dml_action query action, metadata')
        else (STREAM_ACTION_UNKNOWN, metadata'))
    /\ (String.length OUTPUT_BEGIN <= String.length OUTPUT_COMMIT ->
        query = (String.substring 0 (String.length OUTPUT_BEGIN) query ++ payload)%string)
    /\ (String.length OUTPUT_BEGIN < String.length OUTPUT_COMMIT ->
        payload <> string_at query (String.length OUTPUT_COMMIT)).
Proof.
  intros Hne Hc payload. apply String.eqb_neq in Hne.
  pose proof (prefix_length _ _ Hc) as Hlen.
  assert (Htag : exists action,
             tagged_message query = (action, Some (String.length OUTPUT_BEGIN))
             /\ (String.prefix OUTPUT_BEGIN query = false ->
                 action = STREAM_ACTION_COMMIT)).
  { rewrite tagged_message_spec. unfold spec_control_kind. rewrite Hc.
    destruct (String.prefix OUTPUT_BEGIN query).
    - eexists; split; [reflexivity | discriminate].
    - eexists; split; reflexivity. }
  destruct Htag as [action [Htag Hact]].
  exists action. repeat split.
  - exact Htag.
  - exact Hact.
  - unfold parseSQLAction. rewrite Hne, Htag. fold payload.
    destruct (parse_message action payload metadata) as [[|] metadata'];
      reflexivity.
  - intros Hle. apply string_at_split. lia.
  - intros Hlt Heq. apply (f_equal String.length) in Heq.
    unfold payload in Heq.
    destruct (string_at_split query (String.length OUTPUT_BEGIN)) as [_ L1]; [lia|].
    destruct (string_at_split query (String.length OUTPUT_COMMIT)) as [_ L2]; [lia|].
    lia.
Qed.

End ClassifierFacts.

(* ================================================================= *)
(** ** Properties of the replay loop *)

Section ReplayFacts.
Context `{LdStream} `{TargetDatabase}.

Lemma apply_lines_reached count i lines started context :
  reachedEndPos context = true ->
  apply_lines count i lines started context = (true, (started, context)).
Proof. intros R. destruct lines; simpl; [|rewrite R]; reflexivity. Qed.

Lemma apply_lines_cons count i sql rest started context :
  reachedEndPos context = false ->
  apply_lines count i (sql :: rest) started context =
  match apply_line count i sql started context with
  | (true, (started', context')) =>
      apply_lines count (S i) rest started' context'
  | r => r
  end.
Proof.
  intros R. simpl. rewrite R.
  destruct (apply_line count i sql started context) as [[|] [s c]]; reflexivity.
Qed.

Lemma apply_lines_app count l1 : forall i l2 started context,
  apply_lines count i (l1 ++ l2) started context =
  match apply_lines count i l1 started context with
  | (true, (started', context')) =>
      apply_lines count (i + List.length l1) l2 started' context'
  | r => r
  end.
Proof.
  induction l1 as [|sql l1 IH]; intros i l2 started context.
  - simpl. rewrite Nat.add_0_r. reflexivity.
  - destruct (reachedEndPos context) eqn:R.
    + rewrite !apply_lines_reached by assumption. reflexivity.
    + rewrite <- app_comm_cons, !apply_lines_cons by assumption.
      destruct (apply_line count i sql started context) as [[|] [s c]];
        [|reflexivity].
      rewrite IH. simpl List.length. rewrite Nat.add_succ_r. reflexivity.
Qed.

(** One turn of the loop leaves the end position alone, never clears
    [reachedStartingPosition], and only adds to what was sent. *)
Lemma apply_line_frame count i sql started context ok started' context' :
  apply_line count i sql started context = (ok, (started', context')) ->
  endpos context' = endpos context
  /\ (started = true -> started' = true)
  /\ (reachedEndPos context = false -> reachedEndPos context' = true -> ok = true)
  /\ exists new, sent (pgsql context') = sent (pgsql context) ++ new.
Proof.
  intros E. line_cases E;
    repeat split; try congruence;
    try (eexists; rewrite <- ?app_assoc; try reflexivity; symmetry; apply app_nil_r).
Qed.

(** What holds when a turn of the loop sets [reachedEndPos]. *)
Lemma apply_line_stop count i sql started context ok started' context' :
  reachedEndPos context = false ->
  apply_line count i sql started context = (ok, (started', context')) ->
  reachedEndPos context' = true ->
  endpos context <> InvalidXLogRecPtr
  /\ ((endpos context <= previousLSN context')%N
      \/ (stops_before context sql
          /\ previousLSN context' = previousLSN context
          /\ sent (pgsql context') = sent (pgsql context))).
Proof.
  intros R E R'. unfold stops_before. line_cases E; try congruence;
    repeat match goal with
           | A : (_ && _)%bool = true |- _ => apply andb_prop in A; destruct A
           | A : negb _ = true |- _ => apply negb_true_iff in A
           | A : (_ =? _)%N = false |- _ => apply N.eqb_neq in A
           | A : (_ <=? _)%N = true |- _ => apply N.leb_le in A
           | A : (_ <? _)%N = true |- _ => apply N.ltb_lt in A
           end;
    (split; [assumption|]); auto.
Qed.

(** The commands a turn of the loop sends register origin positions at
    or before the end position, when there is one. *)
Lemma apply_line_setups count i sql started context ok started' context' :
  apply_line count i sql started context = (ok, (started', context')) ->
  endpos context <> InvalidXLogRecPtr ->
  exists new,
    sent (pgsql context') = sent (pgsql context) ++ new
    /\ Forall (setup_within (endpos context)) new.
Proof.
  intros E Hend. line_cases E; lsn_facts; try discriminate; try contradiction;
    (eexists; split;
     [rewrite <- ?app_assoc; try reflexivity; symmetry; apply app_nil_r |]);
    repeat (apply Forall_cons || apply Forall_nil); cbn; try exact I;
    eexists; (split; [reflexivity | lia]).
Qed.

Lemma apply_lines_frame count lines : forall i started context ok started' context',
  apply_lines count i lines started context = (ok, (started', context')) ->
  endpos context' = endpos context
  /\ (started = true -> started' = true)
  /\ (reachedEndPos context = false -> reachedEndPos context' = true -> ok = true)
  /\ exists new, sent (pgsql context') = sent (pgsql context) ++ new.
Proof.
  induction lines as [|sql rest IH]; intros i started context ok started' context' E.
  - inversion E; subst. repeat split; try congruence.
    exists []. symmetry; apply app_nil_r.
  - destruct (reachedEndPos context) eqn:R.
    + rewrite apply_lines_reached in E by assumption. inversion E; subst.
      repeat split; try congruence. exists []. symmetry; apply app_nil_r.
    + rewrite apply_lines_cons in E by assumption.
      destruct (apply_line count i sql started context) as [ok1 [s1 c1]] eqn:E1.
      destruct (apply_line_frame _ _ _ _ _ _ _ _ E1) as (F1 & F2 & F3 & new1 & F4).
      destruct ok1.
      * destruct (IH _ _ _ _ _ _ E) as (G1 & G2 & G3 & new2 & G4).
        repeat split.
        -- congruence.
        -- auto.
        -- intros _ R'. destruct (reachedEndPos c1) eqn:R1; [|auto].
           rewrite apply_lines_reached in E by assumption. congruence.
        -- exists (new1 ++ new2). rewrite G4, F4, app_assoc. reflexivity.
      * inversion E; subst. repeat split; auto. exists new1; assumption.
Qed.

Lemma apply_lines_setups count lines : forall i started context ok started' context',
  apply_lines count i lines started context = (ok, (started', context')) ->
  endpos context <> InvalidXLogRecPtr ->
  exists new,
    sent (pgsql context') = sent (pgsql context) ++ new
    /\ Forall (setup_within (endpos context)) new.
Proof.
  induction lines as [|sql rest IH];
    intros i started context ok started' context' E Hend.
  - inversion E; subst. exists []. split; [symmetry; apply app_nil_r | constructor].
  - destruct (reachedEndPos context) eqn:R.
    + rewrite apply_lines_reached in E by assumption. inversion E; subst.
      exists []. split; [symmetry; apply app_nil_r | constructor].
    + rewrite apply_lines_cons in E by assumption.
      destruct (apply_line count i sql started context) as [ok1 [s1 c1]] eqn:E1.
      destruct (apply_line_setups _ _ _ _ _ _ _ _ E1 Hend) as (new1 & S1 & P1).
      destruct (apply_line_frame _ _ _ _ _ _ _ _ E1) as (F1 & _).
      destruct ok1.
      * destruct (IH _ _ _ _ _ _ E) as (new2 & S2 & P2); [congruence|].
        exists (new1 ++ new2). split.
        -- rewrite S2, S1, app_assoc. reflexivity.
        -- apply Forall_app. split; [assumption|]. rewrite <- F1. assumption.
      * inversion E; subst. exists new1. auto.
Qed.

(** When the loop returns with [reachedEndPos] newly set, either the
    origin position is at or past the end position, or the loop stopped
    in front of a record that it did not apply. *)
Lemma apply_lines_stop count lines : forall i started context ok started' context',
  reachedEndPos context = false ->
  apply_lines count i lines started context = (ok, (started', context')) ->
  reachedEndPos context' = true ->
  endpos context <> InvalidXLogRecPtr
  /\ ((endpos context <= previousLSN context')%N
      \/ exists pre sql post,
          lines = pre ++ sql :: post
          /\ stops_before context sql
          /\ let before := context_of (apply_lines count i pre started context) in
             previousLSN context' = previousLSN before
             /\ sent (pgsql context') = sent (pgsql before)).
Proof.
  induction lines as [|sql rest IH];
    intros i started context ok started' context' R E R'.
  - inversion E; subst. congruence.
  - rewrite apply_lines_cons in E by assumption.
    destruct (apply_line count i sql started context) as [ok1 [s1 c1]] eqn:E1.
    destruct (apply_line_frame _ _ _ _ _ _ _ _ E1) as (F1 & _ & F3 & _).
    destruct (reachedEndPos c1) eqn:R1.
    + assert (context' = c1) as ->.
      { destruct ok1; [|congruence].
        rewrite apply_lines_reached in E by assumption. congruence. }
      destruct (apply_line_stop _ _ _ _ _ _ _ _ R E1 R1) as [Hend [Hle | Hstop]].
      * split; [assumption | left; assumption].
      * split; [assumption | right].
        exists [], sql, rest. split; [reflexivity|].
        split; [apply Hstop|]. cbn. apply Hstop.
    + destruct ok1; [|congruence].
      destruct (IH _ _ _ _ _ _ R1 E R') as [Hend [Hle | Hstop]].
      * split; [congruence | left; rewrite <- F1; assumption].
      * split; [congruence | right].
        destruct Hstop as (pre & sql' & post & -> & Hs & Hb).
        exists (sql :: pre), sql', post. split; [reflexivity|].
        split.
        -- unfold stops_before in *. rewrite <- F1. assumption.
        -- rewrite apply_lines_cons by assumption. rewrite E1. exact Hb.
Qed.

(** C2. A BEGIN record whose LSN is at or past the end position sets
    [reachedEndPos] and ends the loop without anything being sent to the
    target. A KEEPALIVE record is only stopped like this when its LSN is
    past the end position: when its LSN is the end position, the start
    position has been reached and the target accepts the commands, the
    keepalive is applied as a transaction of its own (begin, origin
    setup, COMMIT), [previousLSN] becomes the end position, and the check
    after the commit sets [reachedEndPos]. *)
Theorem endpos_predicate_asymmetry (count i : nat) (sql : string) (rest : list string)
        (started : bool) (context : StreamApplyContext)
        (metadata : LogicalMessageMetadata) :
  reachedEndPos context = false ->
  endpos context <> InvalidXLogRecPtr ->
  timestamp metadata <> "" ->
  (parseSQLAction sql metadata_zero = (STREAM_ACTION_BEGIN, metadata) ->
   (endpos context <= lsn metadata)%N ->
   exists started' context',
     apply_lines count i (sql :: rest) started context = (true, (started', context'))
     /\ reachedEndPos context' = true
     /\ sent (pgsql context') = sent (pgsql context)
     /\ previousLSN context' = previousLSN context)
  /\
  (parseSQLAction sql metadata_zero = (STREAM_ACTION_KEEPALIVE, metadata) ->
   (endpos context < lsn metadata)%N ->
   exists started' context',
     apply_lines count i (sql :: rest) started context = (true, (started', context'))
     /\ reachedEndPos context' = true
     /\ sent (pgsql context') = sent (pgsql context)
     /\ previousLSN context' = previousLSN context)
  /\
  (parseSQLAction sql metadata_zero = (STREAM_ACTION_KEEPALIVE, metadata) ->
   lsn metadata = endpos context ->
   started = true \/ (previousLSN context < lsn metadata)%N ->
   let commands :=
     [PgBegin;
      PgOriginXactSetup (format_lsn (lsn metadata)) (timestamp metadata);
      PgExecute "COMMIT"] in
   pgsql_accepts_all (sent (pgsql context)) commands = true ->
   exists context',
     apply_lines count i (sql :: rest) started context = (true, (true, context'))
     /\ sent (pgsql context') = sent (pgsql context) ++ commands
     /\ previousLSN context' = endpos context
     /\ reachedEndPos context' = true).
Proof.
  intros R Hend Hts. apply String.eqb_neq in Hts.
  split; [|split].
  - intros P Hle. rewrite apply_lines_cons by assumption.
    unfold apply_line. rewrite P.
    unfold endpos_at_or_before, IS_EMPTY_STRING_BUFFER. rewrite Hts.
    cbn -[N.eqb N.leb N.ltb]. lsn_goal; try lia; cbn;
      (do 2 eexists; rewrite apply_lines_reached by reflexivity;
       repeat split).
  - intros P Hlt. rewrite apply_lines_cons by assumption.
    unfold apply_line. rewrite P.
    unfold endpos_before, IS_EMPTY_STRING_BUFFER. rewrite Hts.
    cbn -[N.eqb N.leb N.ltb]. lsn_goal; try lia; cbn;
      (do 2 eexists; rewrite apply_lines_reached by reflexivity;
       repeat split).
  - intros P Heq Hstart commands Hacc.
    cbn in Hacc. rewrite <- !app_assoc in Hacc. cbn in Hacc.
    apply andb_prop in Hacc. destruct Hacc as [A1 Hacc].
    apply andb_prop in Hacc. destruct Hacc as [A2 Hacc].
    apply andb_prop in Hacc. destruct Hacc as [A3 _].
    rewrite apply_lines_cons by assumption.
    unfold apply_line. rewrite P.
    unfold endpos_before, endpos_at_or_before, IS_EMPTY_STRING_BUFFER.
    rewrite Hts.
    assert (S' : (if negb started
                  then (previousLSN context <? lsn metadata)%N
                  else started) = true).
    { destruct started; [reflexivity|]. cbn.
      destruct Hstart as [?|?]; [discriminate | apply N.ltb_lt; assumption]. }
    rewrite S'.
    unfold pgsql_begin, pgsql_replication_origin_xact_setup, pgsql_execute,
      pgsql_send.
    cbn -[N.eqb N.leb N.ltb]. rewrite A1.
    cbn -[N.eqb N.leb N.ltb]. rewrite A2.
    cbn -[N.eqb N.leb N.ltb]. rewrite <- !app_assoc.
    cbn -[N.eqb N.leb N.ltb]. rewrite A3.
    cbn -[N.eqb N.leb N.ltb].
    lsn_goal; try lia; try congruence; cbn.
    eexists. rewrite apply_lines_reached by reflexivity.
    repeat split; cbn; auto.
Qed.

Lemma stream_apply_file_replay (lines : list string) (context : StreamApplyContext) :
  stream_apply_file (Some lines) context =
  (succeeded (replay lines (file_opened context)),
   context_of (replay lines (file_opened context))).
Proof.
  unfold stream_apply_file.
  destruct (replay lines (file_opened context)) as [ok [s c]]. reflexivity.
Qed.

(** The replay of a file whose lines before [sql] went through without
    reaching the end position comes to [sql] with what they left. *)
Lemma replay_reaches (pre post : list string) (sql : string)
      (context before : StreamApplyContext) (started : bool) :
  apply_lines (List.length (pre ++ sql :: post)) 0 pre false context
  = (true, (started, before)) ->
  reachedEndPos before = false ->
  replay (pre ++ sql :: post) context =
  match apply_line (List.length (pre ++ sql :: post)) (List.length pre)
                   sql started before with
  | (true, (started', context')) =>
      apply_lines (List.length (pre ++ sql :: post)) (S (List.length pre))
                  post started' context'
  | r => r
  end.
Proof.
  intros E R. unfold replay. rewrite apply_lines_app, E.
  rewrite apply_lines_cons by assumption. reflexivity.
Qed.

(** C8. When the replay of a file comes to a SWITCH record (the lines
    before it went through and did not reach the end position) and the
    record is not on the last line, the violation is logged and
    stream_apply_file returns false, with [previousLSN] as the lines
    before left it; when the record is on the last line, [previousLSN]
    becomes the LSN of the record and stream_apply_file returns true. *)
Theorem switch_must_be_last (pre post : list string) (sql : string)
        (context before : StreamApplyContext) (started : bool)
        (metadata : LogicalMessageMetadata) :
  parseSQLAction sql metadata_zero = (STREAM_ACTION_SWITCH, metadata) ->
  apply_lines (List.length (pre ++ sql :: post)) 0 pre false (file_opened context)
  = (true, (started, before)) ->
  reachedEndPos before = false ->
  (post <> [] ->
   exists context',
     stream_apply_file (Some (pre ++ sql :: post)) context = (false, context')
     /\ previousLSN context' = previousLSN before
     /\ log context' =
        log before
        ++ [(LOG_ERROR, "SWITCH command found in line %d, before last line %d")])
  /\
  (post = [] ->
   exists context',
     stream_apply_file (Some (pre ++ sql :: post)) context = (true, context')
     /\ previousLSN context' = lsn metadata).
Proof.
  intros P E R. split; intros Hpost.
  - rewrite stream_apply_file_replay, (replay_reaches _ _ _ _ _ _ E R).
    unfold apply_line. rewrite P.
    assert (Hi : (List.length pre =? List.length (pre ++ sql :: post) - 1)%nat = false).
    { apply Nat.eqb_neq. rewrite length_app. destruct post; [congruence|].
      simpl. lia. }
    rewrite Hi. cbn. eexists. repeat split.
  - subst post.
    rewrite stream_apply_file_replay, (replay_reaches _ _ _ _ _ _ E R).
    unfold apply_line. rewrite P.
    assert (Hi : (List.length pre =? List.length (pre ++ [sql]) - 1)%nat = true).
    { apply Nat.eqb_eq. rewrite length_app. simpl. lia. }
    rewrite Hi. cbn. eexists. repeat split.
Qed.

(** C10. The classifier returns UNKNOWN for the empty line, and when
    the replay of a file comes to an empty line (the lines before it went
    through and did not reach the end position), the parse error is
    logged and stream_apply_file returns false, whatever the other lines
    of the file are. *)
Theorem empty_line_is_fatal (pre post : list string)
        (context before : StreamApplyContext) (started : bool) :
  apply_lines (List.length (pre ++ "" :: post)) 0 pre false (file_opened context)
  = (true, (started, before)) ->
  reachedEndPos before = false ->
  (forall metadata, parseSQLAction "" metadata = (STREAM_ACTION_UNKNOWN, metadata))
  /\ exists context',
      stream_apply_file (Some (pre ++ "" :: post)) context = (false, context')
      /\ log context' = log before ++ [(LOG_ERROR, "Failed to parse SQL query %s")]
      /\ previousLSN context' = previousLSN before
      /\ sent (pgsql context') = sent (pgsql before).
Proof.
  intros E R. split; [reflexivity|].
  rewrite stream_apply_file_replay, (replay_reaches _ _ _ _ _ _ E R).
  unfold apply_line. cbn. eexists. repeat split.
Qed.

End ReplayFacts.

Section ProgressFacts.
Context `{LdStream} `{TargetDatabase}.

Lemma lsns_app (l1 l2 : list string) : lsns (l1 ++ l2) = lsns l1 ++ lsns l2.
Proof.
  induction l1 as [|sql l1 IH]; [reflexivity|].
  simpl. destruct (record_lsn sql); simpl; rewrite IH; reflexivity.
Qed.

Lemma switch_lsns_app (l1 l2 : list string) :
  switch_lsns (l1 ++ l2) = switch_lsns l1 ++ switch_lsns l2.
Proof.
  induction l1 as [|sql l1 IH]; [reflexivity|].
  simpl. destruct (switch_lsn sql); simpl; rewrite IH; reflexivity.
Qed.

Lemma switch_lsn_record (sql : string) (l : XLogRecPtr) :
  switch_lsn sql = Some l -> record_lsn sql = Some l.
Proof.
  unfold switch_lsn, record_lsn.
  destruct (parseSQLAction sql metadata_zero) as [[] m]; congruence.
Qed.

Lemma switch_lsns_among (P : XLogRecPtr -> Prop) (lines : list string) :
  Forall P (lsns lines) -> Forall P (switch_lsns lines).
Proof.
  induction lines as [|sql rest IH]; intros F; [constructor|].
  simpl in *. destruct (switch_lsn sql) as [l|] eqn:S.
  - rewrite (switch_lsn_record _ _ S) in F. inversion F; subst.
    constructor; auto.
  - destruct (record_lsn sql); [inversion F; subst|]; auto.
Qed.

Lemma StronglySorted_app_r (l1 l2 : list N) :
  StronglySorted N.le (l1 ++ l2) -> StronglySorted N.le l2.
Proof.
  induction l1 as [|x l1 IH]; intros S; [exact S|].
  inversion S; subst. auto.
Qed.

Lemma ahead_app_r started context l1 l2 :
  ahead started context (l1 ++ l2) -> ahead started context l2.
Proof.
  unfold ahead. rewrite switch_lsns_app, lsns_app. intros [A B]. split.
  - apply Forall_app in A. apply A.
  - intros S. apply Forall_app in B; [apply B | assumption].
Qed.

Lemma ahead_from x started context lines :
  (previousLSN context <= x)%N ->
  Forall (N.le x) (lsns lines) ->
  ahead started context lines.
Proof.
  intros Hx F.
  assert (F' : Forall (N.le (previousLSN context)) (lsns lines)).
  { eapply Forall_impl; [|exact F]. intros a Ha. cbn in *. lia. }
  split; [apply switch_lsns_among; assumption | auto].
Qed.

(** How one turn of the loop changes [reachedStartingPosition] and
    [previousLSN]. *)
Lemma apply_line_effect count i sql started context ok started' context' :
  apply_line count i sql started context = (ok, (started', context')) ->
  let m := snd (parseSQLAction sql metadata_zero) in
  (started' = true ->
   started = true
   \/ (record_lsn sql = Some (lsn m) /\ (previousLSN context < lsn m)%N))
  /\ (previousLSN context' = previousLSN context
      \/ (previousLSN context' = lsn m
          /\ (switch_lsn sql = Some (lsn m)
              \/ (started' = true /\ record_lsn sql = Some (lsn m))))).
Proof.
  intros E. unfold record_lsn, switch_lsn.
  line_cases E; lsn_facts; try discriminate; cbn; auto 6;
    lsn_goal; intuition (auto; try discriminate; try lia).
Qed.

Lemma apply_line_progress count i sql rest started context ok started' context' :
  StronglySorted N.le (lsns (sql :: rest)) ->
  ahead started context (sql :: rest) ->
  apply_line count i sql started context = (ok, (started', context')) ->
  (previousLSN context <= previousLSN context')%N
  /\ StronglySorted N.le (lsns rest)
  /\ ahead started' context' rest.
Proof.
  intros S A E.
  destruct (apply_line_effect _ _ _ _ _ _ _ _ E) as [Hs Hp].
  set (m := snd (parseSQLAction sql metadata_zero)) in *.
  assert (Srest : StronglySorted N.le (lsns rest)).
  { change (sql :: rest) with ([sql] ++ rest) in S. rewrite lsns_app in S.
    apply StronglySorted_app_r in S. exact S. }
  assert (Hrec : record_lsn sql = Some (lsn m) -> Forall (N.le (lsn m)) (lsns rest)).
  { intros R. simpl in S. rewrite R in S. inversion S; subst. assumption. }
  assert (Arest : ahead started context rest).
  { change (sql :: rest) with ([sql] ++ rest) in A.
    apply ahead_app_r in A. exact A. }
  assert (Hle : started' = true -> record_lsn sql = Some (lsn m) ->
                (previousLSN context <= lsn m)%N).
  { intros S' R. destruct (Hs S') as [-> | [_ Hlt]]; [|lia].
    destruct A as [_ B]. specialize (B eq_refl). simpl in B. rewrite R in B.
    inversion B; subst. assumption. }
  destruct Hp as [Hp | [Hp [Hsw | [S' R]]]].
  - split; [lia|]. split; [assumption|].
    unfold ahead in *. rewrite Hp. split; [apply Arest|].
    intros S'. destruct (Hs S') as [-> | [R Hlt]]; [apply Arest; reflexivity|].
    eapply Forall_impl; [|apply (Hrec R)]. intros a Ha. cbn in *. lia.
  - assert (Hm : (previousLSN context <= lsn m)%N).
    { destruct A as [A _]. simpl in A. rewrite Hsw in A.
      inversion A; subst. assumption. }
    split; [lia|]. split; [assumption|].
    apply ahead_from with (x := lsn m); [lia|].
    apply Hrec, switch_lsn_record, Hsw.
  - split; [rewrite Hp; auto|]. split; [assumption|].
    apply ahead_from with (x := lsn m); [lia | auto].
Qed.

Lemma apply_lines_progress count l1 :
  forall l2 i started context ok started' context',
    StronglySorted N.le (lsns (l1 ++ l2)) ->
    ahead started context (l1 ++ l2) ->
    apply_lines count i l1 started context = (ok, (started', context')) ->
    (previousLSN context <= previousLSN context')%N
    /\ StronglySorted N.le (lsns l2)
    /\ ahead started' context' l2.
Proof.
  induction l1 as [|sql l1 IH]; intros l2 i started context ok started' context' S A E.
  - inversion E; subst. split; [lia | auto].
  - destruct (reachedEndPos context) eqn:R.
    + rewrite apply_lines_reached in E by assumption. inversion E; subst.
      split; [lia|]. split.
      * rewrite lsns_app in S. apply StronglySorted_app_r in S. exact S.
      * apply ahead_app_r in A. exact A.
    + rewrite apply_lines_cons in E by assumption.
      destruct (apply_line count i sql started context) as [ok1 [s1 c1]] eqn:E1.
      rewrite <- app_comm_cons in S, A.
      destruct (apply_line_progress _ _ _ _ _ _ _ _ _ S A E1) as (P1 & S1 & A1).
      destruct ok1.
      * destruct (IH _ _ _ _ _ _ _ S1 A1 E) as (P2 & S2 & A2).
        split; [lia | auto].
      * inversion E; subst. split; [assumption|]. split.
        -- rewrite lsns_app in S1. apply StronglySorted_app_r in S1. exact S1.
        -- apply ahead_app_r in A1. exact A1.
Qed.

(** C3 (amended). On a file whose control records are in non-decreasing
    LSN order and whose SWITCH record is not behind the [previousLSN] the
    replay is entered with, [previousLSN] never decreases: after any
    number of lines it is at or past its value on entry, and after more
    lines it is at or past its value after fewer. *)
Theorem previousLSN_monotone (count : nat) (l1 l2 : list string)
        (context : StreamApplyContext) :
  in_lsn_order (l1 ++ l2) ->
  Forall (N.le (previousLSN context)) (switch_lsns (l1 ++ l2)) ->
  let after1 := context_of (apply_lines count 0 l1 false context) in
  let after2 := context_of (apply_lines count 0 (l1 ++ l2) false context) in
  (previousLSN context <= previousLSN after1)%N
  /\ (previousLSN after1 <= previousLSN after2)%N.
Proof.
  intros S A after1 after2.
  apply Sorted_StronglySorted in S; [|intros x y z; apply N.le_trans].
  assert (A0 : ahead false context (l1 ++ l2)) by (split; [assumption | discriminate]).
  subst after1 after2. rewrite apply_lines_app.
  destruct (apply_lines count 0 l1 false context) as [ok1 [s1 c1]] eqn:E1.
  destruct (apply_lines_progress _ _ _ _ _ _ _ _ _ S A0 E1) as (P1 & S1 & A1).
  split; [exact P1|].
  destruct ok1; [|cbn; lia].
  destruct (apply_lines count (0 + List.length l1) l2 s1 c1) as [ok2 [s2 c2]] eqn:E2.
  rewrite <- (app_nil_r l2) in S1, A1.
  destruct (apply_lines_progress _ _ _ _ _ _ _ _ _ S1 A1 E2) as (P2 & _).
  exact P2.
Qed.

(** *** Skipping up to the starting position *)





Lemma lsns_before (pre tail : list string) (b : string) (x : XLogRecPtr) :
  StronglySorted N.le (lsns (pre ++ b :: tail)) ->
  record_lsn b = Some x ->
  Forall (fun sql => forall l, record_lsn sql = Some l -> (l <= x)%N) pre.
Proof.
  intros S R. induction pre as [|sql pre IH]; [constructor|].
  rewrite <- app_comm_cons in S. simpl in S.
  destruct (record_lsn sql) as [l|] eqn:Rl.
  - inversion S as [|? ? S' F']; subst. constructor; [|auto].
    intros l' E'. rewrite Rl in E'. injection E' as <-.
    rewrite lsns_app in F'. apply Forall_app in F'. destruct F' as [_ F'].
    simpl in F'. rewrite R in F'. inversion F'; subst. assumption.
  - constructor; [intros l' E'; rewrite Rl in E'; discriminate | auto].
Qed.


End ProgressFacts.

(* ================================================================= *)
(** ** Properties of the bootstrap and of the sentinel client *)

Section DriverFacts.
Context `{LdStream} `{TargetDatabase} `{Environment}.

(** C9. A non-zero command line end position becomes the end position
    of the context, a zero one leaves the end position the context
    already has; the warning is logged exactly when both the command line
    value and the value in the context are non-zero. This holds whether
    the rest of the bootstrap then succeeds or not. *)
Theorem setupReplicationOrigin_endpos (context : StreamApplyContext)
        (paths_ source_pguri_ target_pguri_ origin_ : string)
        (endpos_ : XLogRecPtr) (apply_ : bool) :
  let context' :=
    snd (setupReplicationOrigin context paths_ source_pguri_ target_pguri_
                                origin_ endpos_ apply_) in
  endpos context' =
  (if (endpos_ =? InvalidXLogRecPtr)%N then endpos context else endpos_)
  /\ (In endpos_warning (log context') <->
     In endpos_warning (log context)
     \/ (endpos_ <> InvalidXLogRecPtr /\ endpos context <> InvalidXLogRecPtr)).
Proof.
  unfold setupReplicationOrigin, computeSQLFileName, pgsql_finish, pgsql_send,
    endpos_warning.
  cbn -[N.eqb]. lsn_goal; cbn;
    repeat match goal with
           | |- context [ if ?b then _ else _ ] => destruct b; cbn
           end;
    (split; [reflexivity|]);
    rewrite ?in_app_iff; cbn;
    intuition (try discriminate; try congruence).
Qed.

Lemma stream_apply_file_frame content context ok context' :
  stream_apply_file content context = (ok, context') ->
  reachedEndPos context = false ->
  reachedEndPos context' = true ->
  ok = true.
Proof.
  intros E R R'. destruct content as [lines|].
  - rewrite stream_apply_file_replay in E. injection E as <- <-.
    destruct (replay lines (file_opened context)) as [ok1 [s1 c1]] eqn:E1.
    unfold replay in E1.
    destruct (apply_lines_frame _ _ _ _ _ _ _ _ E1) as (_ & _ & F & _).
    cbn in *. auto.
  - cbn in E. injection E as <- <-. congruence.
Qed.

Lemma stream_apply_sync_sentinel_frame now context :
  reachedEndPos (snd (stream_apply_sync_sentinel now context)) = reachedEndPos context
  /\ previousLSN (snd (stream_apply_sync_sentinel now context)) = previousLSN context
  /\ sent (pgsql (snd (stream_apply_sync_sentinel now context))) = sent (pgsql context).
Proof.
  unfold stream_apply_sync_sentinel.
  destruct (pgsql_init_source (source_pguri context)); cbn; [|auto].
  destruct (pgsql_sync_sentinel_apply now (previousLSN context) Sentinel.zero)
    as [[|] sentinel]; cbn; auto.
Qed.

(** Whether [pgsql_sync_sentinel_apply] succeeds or fails, the three
    control fields of the context become what the call has left in
    [sentinel]. *)
Lemma stream_apply_sync_sentinel_fields now context :
  pgsql_init_source (source_pguri context) = true ->
  let sentinel :=
    snd (pgsql_sync_sentinel_apply now (previousLSN context) Sentinel.zero) in
  let context' := snd (stream_apply_sync_sentinel now context) in
  fst (stream_apply_sync_sentinel now context) = true
  /\ startpos context' = Sentinel.startpos sentinel
  /\ endpos context' = Sentinel.endpos sentinel
  /\ apply context' = Sentinel.apply sentinel.
Proof.
  intros Hinit. unfold stream_apply_sync_sentinel. rewrite Hinit. cbn.
  destruct (pgsql_sync_sentinel_apply now (previousLSN context) Sentinel.zero)
    as [[|] sentinel]; cbn; auto.
Qed.

Lemma check_endpos_after_sync_sets context :
  reachedEndPos context = false ->
  reachedEndPos (check_endpos_after_sync context) = true ->
  endpos (check_endpos_after_sync context) <> InvalidXLogRecPtr
  /\ (endpos (check_endpos_after_sync context)
      <= previousLSN (check_endpos_after_sync context))%N.
Proof.
  unfold check_endpos_after_sync. intros R. rewrite R. cbn -[N.eqb N.leb].
  lsn_goal; cbn; intros; try congruence. auto.
Qed.

(** A run of the driver's loop that ends with [reachedEndPos] set ends in
    a turn in which either the replay of the file set it, or the check
    after the sync did. *)
Lemma catchup_loop_stop fuel : forall now context ok context',
  catchup_loop fuel now context = Some (ok, context') ->
  reachedEndPos context = false ->
  reachedEndPos context' = true ->
  ok = true
  /\ exists now' before replayed,
      reachedEndPos before = false
      /\ stream_apply_file (read_lines now' (sqlFileName before)) before
         = (true, replayed)
      /\ context' =
         pgsql_finish
           (check_endpos_after_sync (snd (stream_apply_sync_sentinel now' replayed)))
      /\ (reachedEndPos replayed = true
          \/ (endpos context' <> InvalidXLogRecPtr
              /\ (endpos context' <= previousLSN context')%N)).
Proof.
  induction fuel as [|fuel IH]; intros now context ok context' E R R'.
  - discriminate.
  - cbn [catchup_loop] in E.
    destruct (asked_to_stop now).
    { injection E as <- <-. cbn in R'. congruence. }
    destruct (file_exists now (sqlFileName context)); cbn [negb] in E.
    2:{ apply IH in E; auto. }
    destruct (stream_apply_file (read_lines now (sqlFileName context)) context)
      as [ok1 replayed] eqn:E1.
    destruct ok1; cbn [negb] in E.
    2:{ injection E as <- <-.
        pose proof (stream_apply_file_frame _ _ _ _ E1 R R'). discriminate. }
    destruct (stream_apply_sync_sentinel now replayed) as [ok2 synced] eqn:E2.
    destruct (stream_apply_sync_sentinel_frame now replayed) as (S1 & S2 & S3).
    rewrite E2 in S1, S2, S3. cbn [snd] in S1, S2, S3.
    destruct (reachedEndPos (check_endpos_after_sync synced)) eqn:R3.
    + injection E as <- <-. split; [reflexivity|].
      exists now, context, replayed. rewrite E2. cbn [snd].
      split; [assumption|]. split; [exact E1|]. split; [reflexivity|].
      destruct (reachedEndPos replayed) eqn:R1; [left; reflexivity | right].
      apply (check_endpos_after_sync_sets synced S1 R3).
    + unfold computeSQLFileName in E. cbn [negb] in E.
      apply IH in E; auto.
      destruct (String.eqb _ _); cbn; assumption.
Qed.

(** C1 (amended). When the replay of a file, entered with [reachedEndPos]
    unset, returns with [reachedEndPos] set, it has succeeded, the end
    position is set, and either the origin position [previousLSN] is at or
    past it, or the loop stopped in front of a BEGIN record at or past the
    end position, or of a KEEPALIVE record past it, which it did not
    apply, leaving [previousLSN] as it was. Every origin position that
    was registered on the target session during the replay, the LSN of a
    BEGIN or KEEPALIVE record, is at or before the end position. A run
    of the driver's loop that ends with [reachedEndPos] set ends in a turn in
    which the replay of the file set it, or else the check after the sync
    did, with the end position then in the context at or before
    [previousLSN]. *)
Theorem endpos_obedience :
  (forall (lines : list string) (context : StreamApplyContext)
          (ok started' : bool) (context' : StreamApplyContext),
      reachedEndPos context = false ->
      replay lines context = (ok, (started', context')) ->
      reachedEndPos context' = true ->
      ok = true
      /\ endpos context' = endpos context
      /\ endpos context <> InvalidXLogRecPtr
      /\ ((endpos context <= previousLSN context')%N
          \/ exists pre sql post,
              lines = pre ++ sql :: post
              /\ stops_before context sql
              /\ let before :=
                   context_of (apply_lines (List.length lines) 0 pre false context) in
                 previousLSN context' = previousLSN before
                 /\ sent (pgsql context') = sent (pgsql before))
      /\ (exists new,
            sent (pgsql context') = sent (pgsql context) ++ new
            /\ Forall (setup_within (endpos context)) new))
  /\
  (forall (fuel now : nat) (context : StreamApplyContext)
          (ok : bool) (context' : StreamApplyContext),
      catchup_loop fuel now context = Some (ok, context') ->
      reachedEndPos context = false ->
      reachedEndPos context' = true ->
      ok = true
      /\ exists now' before replayed,
          reachedEndPos before = false
          /\ stream_apply_file (read_lines now' (sqlFileName before)) before
             = (true, replayed)
          /\ context' =
             pgsql_finish
               (check_endpos_after_sync
                  (snd (stream_apply_sync_sentinel now' replayed)))
          /\ (reachedEndPos replayed = true
              \/ (endpos context' <> InvalidXLogRecPtr
                  /\ (endpos context' <= previousLSN context')%N))).
Proof.
  split.
  - intros lines context ok started' context' R E R'. unfold replay in E.
    destruct (apply_lines_frame _ _ _ _ _ _ _ _ E) as (F1 & _ & F3 & _).
    destruct (apply_lines_stop _ _ _ _ _ _ _ _ R E R') as [Hend Hstop].
    split; [auto|]. split; [assumption|]. split; [assumption|].
    split; [assumption|].
    apply (apply_lines_setups _ _ _ _ _ _ _ _ E Hend).
  - intros fuel. apply catchup_loop_stop.
Qed.

End DriverFacts.

(* ================================================================= *)
(** ** The scenarios of section 8, run on the model *)

Section Runs.
Import Producer Scenario.

(** C1, as stated, fails on scenario 3: with the end position at
    0/A0000050 the driver stops with [reachedEndPos] set after it has
    applied the transaction that commits at 0/A0000060; and on a
    transaction that begins at 0/A0000060 it stops with [reachedEndPos]
    set while the origin position is still 0/A0000000. *)
Lemma endpos_obedience_counterexample :
  let sentinel := Some (Sentinel.mk 0 0xA0000050 true) in
  (exists context',
      @stream_apply_catchup ld_stream target
        (steady_environment (directory single_transaction) sentinel 100)
        3 (specs 0xA0000050)
      = Some (true, context')
      /\ reachedEndPos context' = true
      /\ endpos context' = 0xA0000050%N
      /\ previousLSN context' = 0xA0000060%N
      /\ In (PgExecute "INSERT INTO t VALUES (1)") (sent (pgsql context'))
      /\ In (PgExecute "COMMIT") (sent (pgsql context')))
  /\
  (exists context',
      @stream_apply_catchup ld_stream target
        (steady_environment (directory late_transaction) sentinel 100)
        3 (specs 0xA0000050)
      = Some (true, context')
      /\ reachedEndPos context' = true
      /\ endpos context' = 0xA0000050%N
      /\ previousLSN context' = 0xA0000000%N).
Proof.
  split.
  - eexists. split; [vm_compute; reflexivity|].
    repeat split; cbn; auto 10.
  - eexists. split; [vm_compute; reflexivity|].
    repeat split.
Qed.

Lemma endpos_obedience_witness :
  let context := context_at 0xA0000000 0xA0000050 in
  let r := @replay ld_stream target late_transaction context in
  reachedEndPos context = false
  /\ reachedEndPos (context_of r) = true
  /\ succeeded r = true
  /\ endpos (context_of r) = endpos context
  /\ endpos context <> InvalidXLogRecPtr
  /\ ((endpos context <= previousLSN (context_of r))%N
      \/ exists pre sql post,
          late_transaction = pre ++ sql :: post
          /\ @stops_before ld_stream context sql
          /\ let before :=
               context_of (@apply_lines ld_stream target
                             (List.length late_transaction) 0 pre false context) in
             previousLSN (context_of r) = previousLSN before
             /\ sent (pgsql (context_of r)) = sent (pgsql before)).
Proof.
  intros context r.
  split; [reflexivity|]. split; [reflexivity|].
  destruct (@endpos_obedience ld_stream target
              (steady_environment (directory late_transaction) None 100))
    as [P _].
  destruct (P late_transaction context (succeeded r) (started r) (context_of r))
    as (P1 & P2 & P3 & P4 & _);
    [reflexivity | vm_compute; reflexivity | reflexivity |].
  repeat split; assumption.
Defined.

Lemma endpos_predicate_asymmetry_witness :
  (* a BEGIN at 0/A0000060 with the end position at 0/A0000050 *)
  (let context := context_at 0xA0000000 0xA0000050 in
   exists started' context',
     @apply_lines ld_stream target 3 0 late_transaction false context
     = (true, (started', context'))
     /\ reachedEndPos context' = true
     /\ sent (pgsql context') = sent (pgsql context)
     /\ previousLSN context' = previousLSN context)
  /\
  (* scenario 4: a KEEPALIVE at the end position 0/B0000000 *)
  (let context := context_at 0xA0000000 0xB0000000 in
   exists context',
     @apply_lines ld_stream target 1 0 [keepalive_line "0/B0000000" ts] false context
     = (true, (true, context'))
     /\ sent (pgsql context') =
        sent (pgsql context)
        ++ [PgBegin; PgOriginXactSetup "0/B0000000" ts; PgExecute "COMMIT"]
     /\ previousLSN context' = endpos context
     /\ reachedEndPos context' = true).
Proof.
  split.
  - intros context.
    pose proof (@endpos_predicate_asymmetry ld_stream target 3 0
                  (begin_line "43" "0/A0000060" ts)
                  ["INSERT INTO t VALUES (2);"; commit_line "43" "0/A0000080" ts]
                  false context
                  (mkMetadata STREAM_ACTION_BEGIN 43 0xA0000060 ts)) as P.
    destruct P as [P _]; [reflexivity | discriminate | discriminate |].
    apply P; [reflexivity | vm_compute; discriminate].
  - intros context.
    pose proof (@endpos_predicate_asymmetry ld_stream target 1 0
                  (keepalive_line "0/B0000000" ts) [] false context
                  (mkMetadata STREAM_ACTION_KEEPALIVE 0 0xB0000000 ts)) as P.
    destruct P as [_ [_ P]]; [reflexivity | discriminate | discriminate |].
    apply P; [reflexivity | reflexivity | right; reflexivity | reflexivity].
Defined.

(** C3, as stated, fails: the one line of this file is in LSN order, and
    its SWITCH record takes [previousLSN] from 0/A2000000 back to
    0/A1000000. *)
Lemma previousLSN_monotone_counterexample :
  let context := context_at 0xA2000000 0 in
  let file := [switchwal_line "0/A1000000"] in
  @in_lsn_order ld_stream file
  /\ previousLSN context = 0xA2000000%N
  /\ @replay ld_stream target file context
     = (true, (false,
               log_debug "apply: SWITCH from %X/%X to %X/%X"
                         (set_previousLSN context 0xA1000000)))
  /\ (previousLSN (context_of (@replay ld_stream target file context))
      < previousLSN context)%N.
Proof.
  repeat split. unfold in_lsn_order.
  change (Sorted N.le [0xA1000000%N]). repeat constructor.
Qed.

Lemma previousLSN_monotone_witness :
  let context := context_at 0xA0000000 0 in
  let l1 := firstn 3 two_transactions in
  let l2 := skipn 3 two_transactions in
  @in_lsn_order ld_stream (l1 ++ l2)
  /\ Forall (N.le (previousLSN context)) (@switch_lsns ld_stream (l1 ++ l2))
  /\ (previousLSN context
      <= previousLSN (context_of (@apply_lines ld_stream target 6 0 l1 false context)))%N
  /\ (previousLSN (context_of (@apply_lines ld_stream target 6 0 l1 false context))
      <= previousLSN
           (context_of (@apply_lines ld_stream target 6 0 (l1 ++ l2) false context)))%N.
Proof.
  intros context l1 l2.
  assert (S : @in_lsn_order ld_stream (l1 ++ l2)).
  { unfold in_lsn_order.
    change (Sorted N.le [0xA0000028; 0xA0000060; 0xA0000080; 0xA0000090]%N).
    repeat constructor; discriminate. }
  assert (F : Forall (N.le (previousLSN context)) (@switch_lsns ld_stream (l1 ++ l2))).
  { change (Forall (N.le (previousLSN context)) []). constructor. }
  split; [exact S|]. split; [exact F|].
  exact (@previousLSN_monotone ld_stream target 6 l1 l2 context S F).
Defined.


Lemma switch_must_be_last_witness :
  let context := context_at 0xA0000000 0 in
  (* the SWITCH record on the last line of scenario 2 *)
  (exists context',
      @stream_apply_file ld_stream target (Some single_transaction) context
      = (true, context')
      /\ previousLSN context' = 0xA1000000%N)
  /\
  (* the same file with one more line after the SWITCH record *)
  (exists context',
      @stream_apply_file ld_stream target
        (Some (single_transaction ++ ["INSERT INTO t VALUES (3);"])) context
      = (false, context')
      /\ previousLSN context' = 0xA0000060%N).
Proof.
  intros context.
  set (pre := firstn 3 single_transaction).
  set (r := @apply_lines ld_stream target 4 0 pre false (file_opened context)).
  set (r' := @apply_lines ld_stream target 5 0 pre false (file_opened context)).
  split.
  - destruct (@switch_must_be_last ld_stream target pre []
                (switchwal_line "0/A1000000") context (context_of r) (started r)
                (mkMetadata STREAM_ACTION_SWITCH 0 0xA1000000 ""))
      as [_ P]; [reflexivity | vm_compute; reflexivity | reflexivity |].
    destruct (P eq_refl) as [context' [E L]].
    exists context'. split; [exact E | exact L].
  - destruct (@switch_must_be_last ld_stream target pre ["INSERT INTO t VALUES (3);"]
                (switchwal_line "0/A1000000") context (context_of r') (started r')
                (mkMetadata STREAM_ACTION_SWITCH 0 0xA1000000 ""))
      as [P _]; [reflexivity | vm_compute; reflexivity | reflexivity |].
    destruct P as [context' [E [L _]]]; [discriminate|].
    exists context'. split; [exact E | exact L].
Defined.

Lemma empty_line_is_fatal_witness :
  let context := context_at 0xA0000000 0 in
  let pre := firstn 2 single_transaction in
  let post := skipn 2 single_transaction in
  exists context',
    @stream_apply_file ld_stream target (Some (pre ++ "" :: post)) context
    = (false, context')
    /\ In (LOG_ERROR, "Failed to parse SQL query %s") (log context')
    /\ sent (pgsql context') =
       [PgBegin; PgOriginXactSetup "0/A0000028" ts;
        PgExecute "INSERT INTO t VALUES (1)"].
Proof.
  intros context pre post.
  set (r := @apply_lines ld_stream target 5 0 pre false (file_opened context)).
  destruct (@empty_line_is_fatal ld_stream target pre post context
              (context_of r) (started r))
    as [_ [context' [E [L [_ T]]]]]; [vm_compute; reflexivity | reflexivity |].
  exists context'. split; [exact E|]. split.
  - rewrite L. apply in_or_app. right. left. reflexivity.
  - rewrite T. reflexivity.
Defined.

(** C4: the code at the failing input. The context holds the control
    fields of an earlier sync; the source database is unreachable, so
    [pgsql_sync_sentinel_apply] fails and leaves [sentinel] zeroed;
    stream_apply_sync_sentinel warns, then overwrites the three fields
    with zeros, and returns true. *)
Lemma stream_apply_sync_sentinel_failure :
  let unreachable := steady_environment (directory []) None 100 in
  let context :=
    set_apply (set_startpos (context_at 0xA0000060 0xB0000000) 0xA0000000) true in
  @pgsql_sync_sentinel_apply unreachable 0 (previousLSN context) Sentinel.zero
  = (false, Sentinel.zero)
  /\ (startpos context, endpos context, apply context)
     = (0xA0000000%N, 0xB0000000%N, true)
  /\ exists context',
      @stream_apply_sync_sentinel unreachable 0 context = (true, context')
      /\ (startpos context', endpos context', apply context') = (0%N, 0%N, false)
      /\ log context' =
         [(LOG_WARN, "Failed to sync progress with the pgcopydb sentinel")].
Proof.
  split; [reflexivity|]. split; [reflexivity|].
  eexists. split; [reflexivity|]. split; reflexivity.
Qed.

Lemma parseSQLAction_commit_offset_witness :
  let query := Producer.commit_line "42" "0/A0000060" Scenario.ts in
  query <> "" /\
  String.prefix (@OUTPUT_COMMIT Producer.ld_stream) query = true /\
  exists action,
    @tagged_message Producer.ld_stream query = (action, Some 10)
    /\ (String.prefix (@OUTPUT_BEGIN Producer.ld_stream) query = false ->
        action = STREAM_ACTION_COMMIT)
    /\ @parseSQLAction Producer.ld_stream query metadata_zero =
       (let '(ok, metadata') :=
          @parse_message Producer.ld_stream action (string_at query 10) metadata_zero in
        if ok then (dml_action query action, metadata')
        else (STREAM_ACTION_UNKNOWN, metadata'))
    /\ (10 <= 11 -> query = (String.substring 0 10 query ++ string_at query 10)%string)
    /\ (10 < 11 -> string_at query 10 <> string_at query 11).
Proof.
  intros query.
  split; [discriminate|]. split; [reflexivity|].
  apply (@parseSQLAction_commit_offset Producer.ld_stream query metadata_zero);
    [discriminate | reflexivity].
Defined.

Lemma parseSQLAction_precedence_witness :
  Producer.begin_line "42" "0/A0000028" Scenario.ts <> "" /\
  @parseSQLAction Producer.ld_stream
    (Producer.begin_line "42" "0/A0000028" Scenario.ts) metadata_zero
  = (STREAM_ACTION_BEGIN,
     mkMetadata STREAM_ACTION_BEGIN 42 0xA0000028 Scenario.ts).
Proof.
  split; [discriminate|].
  pose proof (@parseSQLAction_precedence Producer.ld_stream
                (Producer.begin_line "42" "0/A0000028" Scenario.ts)
                metadata_zero) as P.
  destruct P as [offset [Htag P]]; [discriminate|].
  injection Htag as <-. apply P. reflexivity.
Defined.

(** C5, as stated, fails: a line that starts with the BEGIN tag is
    classified UNKNOWN when its payload does not parse, and UPDATE when it
    contains the UPDATE marker. *)
Lemma parseSQLAction_precedence_counterexample :
  (String.prefix (@OUTPUT_BEGIN Producer.ld_stream) "BEGIN; -- {" = true /\
   fst (@parseSQLAction Producer.ld_stream "BEGIN; -- {" metadata_zero)
   = STREAM_ACTION_UNKNOWN)
  /\
  (let line := Producer.begin_line "42" "0/A0000028" "UPDATE " in
   String.prefix (@OUTPUT_BEGIN Producer.ld_stream) line = true /\
   fst (@parseSQLAction Producer.ld_stream line metadata_zero)
   = STREAM_ACTION_UPDATE).
Proof. repeat split. Qed.

End Runs.

(* ================================================================= *)
(** ** Further properties of the replay, the bootstrap and the driver *)

Section ReplayMore.
Context `{LdStream} `{TargetDatabase}.

Lemma replay_keeps_refl context : replay_keeps context context.
Proof.
  unfold replay_keeps. repeat split; auto;
    exists []; symmetry; apply app_nil_r.
Qed.

Lemma replay_keeps_trans c1 c2 c3 :
  replay_keeps c1 c2 -> replay_keeps c2 c3 -> replay_keeps c1 c3.
Proof.
  unfold replay_keeps.
  intros (A1 & A2 & A3 & A4 & A5 & A6 & A7 & A8 & A9 & A10 & A11 & A12 & A13
          & [n1 A14] & [l1 A15])
         (B1 & B2 & B3 & B4 & B5 & B6 & B7 & B8 & B9 & B10 & B11 & B12 & B13
          & [n2 B14] & [l2 B15]).
  repeat split; try congruence; auto.
  - exists (n1 ++ n2). rewrite B14, A14, app_assoc. reflexivity.
  - exists (l1 ++ l2). rewrite B15, A15, app_assoc. reflexivity.
Qed.

Lemma apply_line_keeps count i sql started context :
  replay_keeps context (context_of (apply_line count i sql started context)).
Proof.
  destruct (apply_line count i sql started context) as [ok [s c]] eqn:E.
  unfold context_of, replay_keeps. cbn [snd].
  line_cases E; repeat split; auto;
    try (eexists; rewrite <- ?app_assoc; try reflexivity; symmetry; apply app_nil_r).
Qed.

Lemma apply_lines_keeps count lines : forall i started context,
  replay_keeps context (context_of (apply_lines count i lines started context)).
Proof.
  induction lines as [|sql rest IH]; intros i started context.
  - apply replay_keeps_refl.
  - destruct (reachedEndPos context) eqn:R.
    + rewrite apply_lines_reached by assumption. apply replay_keeps_refl.
    + rewrite apply_lines_cons by assumption.
      pose proof (apply_line_keeps count i sql started context) as K.
      destruct (apply_line count i sql started context) as [[|] [s c]]; [|exact K].
      eapply replay_keeps_trans; [exact K | apply IH].
Qed.

Lemma stream_apply_file_replay_keeps content context ok context' :
  stream_apply_file content context = (ok, context') ->
  replay_keeps context context'.
Proof.
  destruct content as [lines|].
  - rewrite stream_apply_file_replay. intros E. injection E as _ <-.
    eapply replay_keeps_trans; [|apply apply_lines_keeps].
    unfold replay_keeps, file_opened. cbn. repeat split; auto.
    + exists []. symmetry; apply app_nil_r.
    + eexists. rewrite <- app_assoc. reflexivity.
  - cbn. intros E. injection E as _ <-. apply replay_keeps_refl.
Qed.

(** X1. stream_apply_file changes nothing in the context but the commands
    sent, [previousLSN], [reachedEndPos] and the log: the directory, the
    timeline and segment size, the URIs, the origin name, the statement
    mode of the connection, [startpos], [endpos], [apply], [wal] and
    [sqlFileName] are as on entry, commands and log lines are only added,
    and a [reachedEndPos] that is set stays set. This holds on failure
    too, and when the file cannot be read. *)
Theorem stream_apply_file_keeps (content : option (list string))
        (context : StreamApplyContext) :
  replay_keeps context (snd (stream_apply_file content context)).
Proof.
  destruct (stream_apply_file content context) as [ok context'] eqn:E.
  exact (stream_apply_file_replay_keeps _ _ _ _ E).
Qed.

(** X2. A turn of the replay loop leaves [previousLSN] as it is, or
    succeeds and sets it to the LSN of the record on the line: of a SWITCH
    record on the last line, or of a COMMIT or KEEPALIVE record once the
    starting position is reached, and then the last command sent is a
    COMMIT that the target has accepted. *)
Theorem previousLSN_advances_at_commit (count i : nat) (sql : string)
        (reached : bool) (context : StreamApplyContext) :
  let r := apply_line count i sql reached context in
  let action := fst (parseSQLAction sql metadata_zero) in
  let metadata := snd (parseSQLAction sql metadata_zero) in
  previousLSN (context_of r) = previousLSN context
  \/ (succeeded r = true
      /\ previousLSN (context_of r) = lsn metadata
      /\ ((action = STREAM_ACTION_SWITCH /\ i = count - 1
           /\ sent (pgsql (context_of r)) = sent (pgsql context))
          \/ ((action = STREAM_ACTION_COMMIT \/ action = STREAM_ACTION_KEEPALIVE)
              /\ started r = true
              /\ exists history,
                  sent (pgsql (context_of r)) = history ++ [PgExecute "COMMIT"]
                  /\ pgsql_accepts history (PgExecute "COMMIT") = true))).
Proof.
  intros r action metadata. subst r action metadata.
  destruct (apply_line count i sql reached context) as [ok [s c]] eqn:E.
  unfold context_of, succeeded, started. cbn [fst snd].
  line_cases E; auto; right; (split; [reflexivity|]); (split; [reflexivity|]).
  all: try (left; repeat split; apply Nat.eqb_eq, negb_false_iff; assumption).
  all: right; (split; [auto|]);
    (split; [try reflexivity; apply negb_false_iff; assumption|]);
    eexists; (split; [reflexivity|]); apply negb_false_iff; assumption.
Qed.

Lemma apply_line_failure count i sql reached context reached' context' :
  apply_line count i sql reached context = (false, (reached', context')) ->
  previousLSN context' = previousLSN context
  /\ reachedEndPos context' = reachedEndPos context
  /\ failure_cause count i sql context context'.
Proof.
  intros E. unfold failure_cause, malformed.
  line_cases E; (split; [reflexivity|]); (split; [reflexivity|]).
  all: try (left; split; reflexivity).
  all: try (right; left; repeat split;
            apply Nat.eqb_neq, negb_true_iff; assumption).
  all: try (right; right; left; split; [auto|split; reflexivity]).
  all: right; right; right; do 2 eexists;
    (split; [reflexivity|]); apply negb_true_iff; assumption.
Qed.

(** X3. When the replay of a file fails, it failed on one line: the lines
    before it went through without reaching the end position, the lines
    after it were not looked at, and [previousLSN] and [reachedEndPos] are
    as the lines before left them. The line is of no known kind, a SWITCH
    record that is not on the last line, a malformed BEGIN or KEEPALIVE
    record, or one for which the target refused the last command sent. *)
Theorem replay_failure_point (lines : list string) (context : StreamApplyContext)
        (reached' : bool) (context' : StreamApplyContext) :
  replay lines context = (false, (reached', context')) ->
  exists pre sql post reached before,
    lines = pre ++ sql :: post
    /\ apply_lines (List.length lines) 0 pre false context = (true, (reached, before))
    /\ reachedEndPos before = false
    /\ apply_line (List.length lines) (List.length pre) sql reached before
       = (false, (reached', context'))
    /\ previousLSN context' = previousLSN before
    /\ reachedEndPos context' = false
    /\ failure_cause (List.length lines) (List.length pre) sql before context'.
Proof.
  unfold replay. generalize (List.length lines) as count.
  intros count.
  assert (G : forall lines i reached0 context0,
             apply_lines count i lines reached0 context0 = (false, (reached', context')) ->
             exists pre sql post reached before,
               lines = pre ++ sql :: post
               /\ apply_lines count i pre reached0 context0 = (true, (reached, before))
               /\ reachedEndPos before = false
               /\ apply_line count (i + List.length pre) sql reached before
                  = (false, (reached', context'))).
  { clear lines context. induction lines as [|sql rest IH]; intros i reached0 context0 E.
    - discriminate.
    - destruct (reachedEndPos context0) eqn:R.
      + rewrite apply_lines_reached in E by assumption. discriminate.
      + rewrite apply_lines_cons in E by assumption.
        destruct (apply_line count i sql reached0 context0) as [ok1 [s1 c1]] eqn:E1.
        destruct ok1.
        * destruct (IH _ _ _ E) as (pre & sql' & post & r & b & -> & Ep & Rb & El).
          exists (sql :: pre), sql', post, r, b. repeat split; auto.
          -- rewrite apply_lines_cons, E1 by assumption. exact Ep.
          -- simpl List.length. rewrite Nat.add_succ_r. exact El.
        * exists [], sql, rest, reached0, context0.
          rewrite Nat.add_0_r. repeat split; auto. congruence. }
  intros E. destruct (G _ _ _ _ E) as (pre & sql & post & r & b & L & Ep & Rb & El).
  exists pre, sql, post, r, b. cbn in El.
  destruct (apply_line_failure _ _ _ _ _ _ _ El) as (P1 & P2 & P3).
  repeat split; auto. congruence.
Qed.

(** X4. A BEGIN or KEEPALIVE record without an LSN or without a timestamp
    is fatal wherever the replay loop comes to it, also before the starting
    position and at or after the end position: the turn returns false,
    logs the failure as fatal, sends nothing, and leaves [previousLSN] and
    [reachedEndPos] as they were. *)
Theorem malformed_record_is_fatal (count i : nat) (sql : string) (rest : list string)
        (reached : bool) (context : StreamApplyContext)
        (action : StreamAction) (metadata : LogicalMessageMetadata) :
  reachedEndPos context = false ->
  parseSQLAction sql metadata_zero = (action, metadata) ->
  action = STREAM_ACTION_BEGIN \/ action = STREAM_ACTION_KEEPALIVE ->
  malformed metadata = true ->
  exists reached' context' message,
    apply_lines count i (sql :: rest) reached context = (false, (reached', context'))
    /\ In (LOG_FATAL, message) (log context')
    /\ sent (pgsql context') = sent (pgsql context)
    /\ previousLSN context' = previousLSN context
    /\ reachedEndPos context' = false.
Proof.
  intros R P A M. unfold malformed in M.
  rewrite apply_lines_cons by assumption. unfold apply_line. rewrite P.
  destruct A as [-> | ->]; rewrite M; cbn;
    do 3 eexists; (split; [reflexivity|]); cbn;
    (split; [rewrite !in_app_iff; cbn; auto|]); auto.
Qed.

Lemma setups_follow_begin_app (a b : list PgCommand) : forall previous,
  setups_follow_begin previous a = true ->
  (forall q, setups_follow_begin q b = true) ->
  setups_follow_begin previous (a ++ b) = true.
Proof.
  induction a as [|cmd a IH]; intros previous A B; [apply B|].
  cbn in *. destruct cmd; auto.
  destruct previous as [[]|]; auto.
Qed.

Lemma apply_line_brackets count i sql reached context :
  exists new,
    sent (pgsql (context_of (apply_line count i sql reached context)))
    = sent (pgsql context) ++ new
    /\ forall q, setups_follow_begin q new = true.
Proof.
  destruct (apply_line count i sql reached context) as [ok [s c]] eqn:E.
  unfold context_of. cbn [snd].
  line_cases E;
    (eexists; split;
     [rewrite <- ?app_assoc; try reflexivity; symmetry; apply app_nil_r |]);
    intros q; reflexivity.
Qed.

(** X5. Whatever the file holds, every origin setup that its replay sends
    to the target comes right after a begin: the origin position of a
    transaction is only ever registered as the first command inside a
    transaction that the target has just let the applier open. *)
Theorem origin_setup_follows_begin (lines : list string) (context : StreamApplyContext) :
  exists new,
    sent (pgsql (context_of (replay lines context))) = sent (pgsql context) ++ new
    /\ setups_follow_begin None new = true.
Proof.
  unfold replay. generalize (List.length lines) as count. intros count.
  assert (G : forall lines i reached context,
             exists new,
               sent (pgsql (context_of (apply_lines count i lines reached context)))
               = sent (pgsql context) ++ new
               /\ forall q, setups_follow_begin q new = true).
  { clear. induction lines as [|sql rest IH]; intros i reached context.
    - exists []. split; [symmetry; apply app_nil_r | reflexivity].
    - destruct (reachedEndPos context) eqn:R.
      + rewrite apply_lines_reached by assumption.
        exists []. split; [symmetry; apply app_nil_r | reflexivity].
      + rewrite apply_lines_cons by assumption.
        destruct (apply_line_brackets count i sql reached context) as (n1 & S1 & B1).
        destruct (apply_line count i sql reached context) as [[|] [s c]];
          unfold context_of in S1; cbn [snd] in S1.
        * destruct (IH (S i) s c) as (n2 & S2 & B2).
          exists (n1 ++ n2). split.
          -- rewrite S2, S1, app_assoc. reflexivity.
          -- intros q. apply setups_follow_begin_app; auto.
        * exists n1. split; auto. }
  destruct (G lines 0 false context) as (new & S & B).
  exists new. split; auto.
Qed.

Lemma chomp_semicolon_last (s : string) (c : ascii) :
  chomp_semicolon (s ++ String c "")%string =
  if Ascii.eqb c ";" then s else (s ++ String c "")%string.
Proof.
  induction s as [|a s IH].
  - cbn. destruct (Ascii.eqb c ";"); reflexivity.
  - assert (E : exists b r, (s ++ String c "")%string = String b r).
    { destruct s; cbn; eauto. }
    destruct E as (b & r & E).
    change (String a s ++ String c "")%string with (String a (s ++ String c ""))%string.
    rewrite E.
    change (chomp_semicolon (String a (String b r)))
      with (String a (chomp_semicolon (String b r))).
    rewrite <- E, IH. destruct (Ascii.eqb c ";"); reflexivity.
Qed.

(** X6. The statement of a DML line goes to the target without its final
    semicolon, and only that one character is removed: a line that does not
    end in a semicolon is sent as it is. Before the starting position is
    reached a DML line does nothing at all; after it, the turn sends this
    one command, succeeds exactly when the target accepts it, and leaves
    [previousLSN] and [reachedEndPos] as they were. *)
Theorem dml_line_sent_without_semicolon :
  (forall s : string, chomp_semicolon (s ++ ";")%string = s)
  /\ (forall (s : string) (c : ascii),
        c <> ";"%char -> chomp_semicolon (s ++ String c "")%string = (s ++ String c "")%string)
  /\ (forall (count i : nat) (sql : string) (reached : bool)
             (context : StreamApplyContext),
        is_dml (fst (parseSQLAction sql metadata_zero)) = true ->
        let r := apply_line count i sql reached context in
        if reached
        then sent (pgsql (context_of r))
             = sent (pgsql context) ++ [PgExecute (chomp_semicolon sql)]
             /\ succeeded r
                = pgsql_accepts (sent (pgsql context)) (PgExecute (chomp_semicolon sql))
             /\ started r = true
             /\ previousLSN (context_of r) = previousLSN context
             /\ reachedEndPos (context_of r) = reachedEndPos context
        else r = (true, (false, context))).
Proof.
  split; [|split].
  - intros s. change ";"%string with (String ";" ""). rewrite chomp_semicolon_last.
    reflexivity.
  - intros s c Hc. rewrite chomp_semicolon_last.
    apply Ascii.eqb_neq in Hc. rewrite Hc. reflexivity.
  - intros count i sql reached context D r. subst r. unfold apply_line.
    destruct (parseSQLAction sql metadata_zero) as [a m]. cbn in D.
    destruct a; try discriminate; destruct reached; cbn;
      try reflexivity;
      destruct (pgsql_accepts (sent (pgsql context)) (PgExecute (chomp_semicolon sql)));
      cbn; repeat split.
Qed.

End ReplayMore.

Section TailFollow.
Context `{LdStream} `{TargetDatabase}.

Lemma apply_line_passable count i sql reached context reached' context' :
  apply_line count i sql reached context = (true, (reached', context')) ->
  reachedEndPos context' = false ->
  switch_lsn sql = None ->
  passable (endpos context) sql = true.
Proof.
  intros E R S. unfold passable, switch_lsn, malformed in *.
  line_cases E; try discriminate; try reflexivity;
    repeat match goal with
           | A : ?b = false |- context [ ?b ] => rewrite A
           end; reflexivity.
Qed.

Lemma apply_lines_passable count lines : forall i reached context reached' context',
  apply_lines count i lines reached context = (true, (reached', context')) ->
  reachedEndPos context' = false ->
  switch_lsns lines = [] ->
  Forall (fun sql => passable (endpos context) sql = true) lines.
Proof.
  induction lines as [|sql rest IH]; intros i reached context reached' context' E R S;
    [constructor|].
  assert (R0 : reachedEndPos context = false).
  { destruct (reachedEndPos context) eqn:Q; [|reflexivity].
    rewrite apply_lines_reached in E by assumption. congruence. }
  rewrite apply_lines_cons in E by assumption.
  destruct (apply_line count i sql reached context) as [ok1 [s1 c1]] eqn:E1.
  destruct ok1; [|discriminate].
  assert (R1 : reachedEndPos c1 = false).
  { destruct (reachedEndPos c1) eqn:Q; [|reflexivity].
    rewrite apply_lines_reached in E by assumption. congruence. }
  simpl in S. destruct (switch_lsn sql) eqn:Ssql; [discriminate|].
  destruct (apply_line_frame _ _ _ _ _ _ _ _ E1) as (F1 & _).
  constructor.
  - apply (apply_line_passable _ _ _ _ _ _ _ E1 R1 Ssql).
  - rewrite <- F1. apply (IH _ _ _ _ _ E R S).
Qed.

Lemma apply_line_still_skipping count i sql context context' :
  apply_line count i sql false context = (true, (false, context')) ->
  switch_lsn sql = None ->
  previousLSN context' = previousLSN context
  /\ starts_after (previousLSN context) sql = false.
Proof.
  intros E S. unfold starts_after, switch_lsn in *.
  line_cases E; try discriminate; auto;
    try match goal with
        | A : negb ?b = false, B : ?b = false |- _ => rewrite B in A; discriminate
        end.
Qed.

Lemma apply_lines_still_skipping count lines : forall i context context',
  apply_lines count i lines false context = (true, (false, context')) ->
  reachedEndPos context' = false ->
  switch_lsns lines = [] ->
  previousLSN context' = previousLSN context
  /\ Forall (fun sql => starts_after (previousLSN context) sql = false) lines.
Proof.
  induction lines as [|sql rest IH]; intros i context context' E R S.
  - inversion E; subst. split; [reflexivity | constructor].
  - assert (R0 : reachedEndPos context = false).
    { destruct (reachedEndPos context) eqn:Q; [|reflexivity].
      rewrite apply_lines_reached in E by assumption. congruence. }
    rewrite apply_lines_cons in E by assumption.
    destruct (apply_line count i sql false context) as [ok1 [s1 c1]] eqn:E1.
    destruct ok1; [|discriminate].
    destruct s1.
    { destruct (apply_lines_frame _ _ _ _ _ _ _ _ E) as (_ & F & _).
      specialize (F eq_refl). discriminate. }
    simpl in S. destruct (switch_lsn sql) eqn:Ssql; [discriminate|].
    destruct (apply_line_still_skipping _ _ _ _ _ E1 Ssql) as [P1 P2].
    destruct (IH _ _ _ E R S) as [Q1 Q2].
    split; [congruence|]. constructor; [assumption|].
    rewrite <- P1. assumption.
Qed.

(** The closing record of a transaction, applied: [previousLSN] is its
    LSN. *)
Lemma apply_line_closes count i sql reached context context' :
  apply_line count i sql reached context = (true, (true, context')) ->
  reachedEndPos context' = false ->
  closes_transaction sql = true ->
  record_lsn sql = Some (previousLSN context').
Proof.
  intros E R C. unfold closes_transaction, record_lsn in *.
  line_cases E; try discriminate; try reflexivity;
    try match goal with
        | A : negb ?b = _, B : ?b = _ |- _ => rewrite B in A; discriminate
        end;
    congruence.
Qed.

Lemma apply_lines_skips_all count lines : forall i context,
  reachedEndPos context = false ->
  Forall (fun sql => passable (endpos context) sql = true) lines ->
  Forall (fun sql => starts_after (previousLSN context) sql = false) lines ->
  exists context',
    apply_lines count i lines false context = (true, (false, context'))
    /\ sent (pgsql context') = sent (pgsql context)
    /\ previousLSN context' = previousLSN context
    /\ endpos context' = endpos context
    /\ reachedEndPos context' = false.
Proof.
  induction lines as [|sql rest IH]; intros i context R P Sk.
  - exists context. repeat split; auto.
  - inversion P as [|? ? P1 P2]; subst. inversion Sk as [|? ? S1 S2]; subst.
    rewrite apply_lines_cons by assumption.
    assert (E : exists c1,
               apply_line count i sql false context = (true, (false, c1))
               /\ sent (pgsql c1) = sent (pgsql context)
               /\ previousLSN c1 = previousLSN context
               /\ endpos c1 = endpos context
               /\ reachedEndPos c1 = false).
    { unfold passable, starts_after, malformed in *. unfold apply_line.
      unfold endpos_at_or_before, endpos_before.
      destruct (parseSQLAction sql metadata_zero) as [[] m]; try discriminate;
        cbn -[N.eqb N.leb N.ltb];
        try (eexists; repeat split; eauto; fail);
        rewrite ?S1; cbn -[N.eqb N.leb N.ltb];
        apply andb_prop in P1; destruct P1 as [M L];
        apply negb_true_iff in M; apply negb_true_iff in L;
        rewrite M, L; cbn;
        eexists; repeat split; eauto. }
    destruct E as (c1 & E1 & A1 & A2 & A3 & A4). rewrite E1.
    destruct (IH (S i) c1 A4) as (c2 & E2 & B1 & B2 & B3 & B4).
    + rewrite A3. assumption.
    + rewrite A2. assumption.
    + exists c2. repeat split; congruence.
Qed.

(** X7. Reading a file again does not apply it again. When the replay of
    a file whose records are in LSN order, which holds no SWITCH record and
    ends with the COMMIT of a transaction or with a KEEPALIVE, has succeeded
    without reaching the end position, a second replay of the same lines
    from the context it left succeeds, sends nothing to the target and
    leaves [previousLSN] where it is. *)
Theorem replay_again_sends_nothing (pre : list string) (sql : string)
        (context : StreamApplyContext) (reached' : bool)
        (context' : StreamApplyContext) :
  closes_transaction sql = true ->
  in_lsn_order (pre ++ [sql]) ->
  switch_lsns (pre ++ [sql]) = [] ->
  replay (pre ++ [sql]) context = (true, (reached', context')) ->
  reachedEndPos context' = false ->
  exists context'',
    replay (pre ++ [sql]) context' = (true, (false, context''))
    /\ sent (pgsql context'') = sent (pgsql context')
    /\ previousLSN context'' = previousLSN context'
    /\ reachedEndPos context'' = false.
Proof.
  intros C S W E R. unfold replay in *.
  set (count := List.length (pre ++ [sql])) in *.
  pose proof (apply_lines_passable _ _ _ _ _ _ _ E R W) as P.
  destruct (apply_lines_frame _ _ _ _ _ _ _ _ E) as (F1 & _).
  assert (A : Forall (fun l => starts_after (previousLSN context') l = false)
                     (pre ++ [sql])).
  { destruct reached'.
    - (* the last line was applied *)
      rewrite apply_lines_app in E.
      destruct (apply_lines count 0 pre false context) as [ok1 [s1 c1]] eqn:E1.
      destruct ok1; [|discriminate].
      assert (R1 : reachedEndPos c1 = false).
      { destruct (reachedEndPos c1) eqn:Q; [|reflexivity].
        rewrite apply_lines_reached in E by assumption. congruence. }
      rewrite apply_lines_cons in E by assumption.
      destruct (apply_line count (0 + List.length pre) sql s1 c1)
        as [ok2 [s2 c2]] eqn:E2.
      destruct ok2; [|discriminate]. cbn in E. injection E as -> ->.
      pose proof (apply_line_closes _ _ _ _ _ _ E2 R C) as L.
      apply Sorted_StronglySorted in S; [|intros x y z; apply N.le_trans].
      pose proof (lsns_before _ _ _ _ S L) as B.
      apply Forall_app. split; [|constructor; [|constructor]].
      + eapply Forall_impl; [|exact B]. intros l Hl.
        unfold starts_after, record_lsn in *.
        destruct (parseSQLAction l metadata_zero) as [[] m]; try reflexivity;
          apply N.ltb_ge; apply Hl; reflexivity.
      + unfold starts_after, record_lsn in *.
        destruct (parseSQLAction sql metadata_zero) as [[] m]; try reflexivity;
          injection L as L; apply N.ltb_ge; rewrite L; apply N.le_refl.
    - destruct (apply_lines_still_skipping _ _ _ _ _ E R W) as [Q1 Q2].
      rewrite Q1. exact Q2. }
  assert (R0 : reachedEndPos context = false).
  { destruct (reachedEndPos context) eqn:Q; [|reflexivity].
    rewrite apply_lines_reached in E by assumption. congruence. }
  destruct (apply_lines_skips_all count (pre ++ [sql]) 0 context' R)
    as (c2 & E2 & B1 & B2 & _ & B4); [rewrite F1; exact P | exact A |].
  exists c2. auto.
Qed.

End TailFollow.

Section DriverMore.
Context `{LdStream} `{TargetDatabase} `{Environment}.

(** X8. When setupReplicationOrigin returns true, the origin named by
    the caller (not the name the context held before) is registered on the
    target, [previousLSN] is the progress the target reports for it, the SQL
    file name is the one computed from that position, the connection is in
    multi-statement mode, and exactly three commands were sent: the lookup
    of the origin, the read of its progress, and the session setup. *)
Theorem setupReplicationOrigin_success (context : StreamApplyContext)
        (paths_ source_pguri_ target_pguri_ origin_ : string)
        (endpos_ : XLogRecPtr) (apply_ : bool) (context' : StreamApplyContext) :
  setupReplicationOrigin context paths_ source_pguri_ target_pguri_ origin_
                         endpos_ apply_ = (true, context') ->
  pgsql_init_target target_pguri_ = true
  /\ replication_origin_oid origin_ <> 0%N
  /\ previousLSN context' = replication_origin_progress origin_
  /\ sent (pgsql context') =
     sent (pgsql context)
     ++ [PgOriginOid origin_; PgOriginProgress origin_; PgOriginSessionSetup origin_]
  /\ pgsql_accepts_all (sent (pgsql context))
       [PgOriginOid origin_; PgOriginProgress origin_; PgOriginSessionSetup origin_]
     = true
  /\ connectionStatementType (pgsql context') = PGSQL_CONNECTION_MULTI_STATEMENT
  /\ wal context' =
     XLogFileName (timeline context)
       (XLByteToSeg (replication_origin_progress origin_) (WalSegSz context))
       (WalSegSz context)
  /\ sqlFileName context' = (paths_ ++ "/" ++ wal context' ++ ".sql")%string
  /\ (dir context', source_pguri context', target_pguri context', origin context')
     = (paths_, source_pguri_, target_pguri_, origin_)
  /\ apply context' = apply_
  /\ reachedEndPos context' = reachedEndPos context
  /\ startpos context' = startpos context.
Proof.
  unfold setupReplicationOrigin, computeSQLFileName, pgsql_finish, pgsql_send.
  cbn -[N.eqb XLogFileName].
  intros E.
  repeat match type of E with
         | context [ if negb ?b then _ else _ ] =>
             destruct b eqn:?; cbn -[N.eqb XLogFileName] in E; try discriminate
         | context [ if (?a =? ?b)%N then _ else _ ] =>
             destruct (N.eqb_spec a b); cbn -[N.eqb XLogFileName] in E; try discriminate
         end.
  all: injection E as <-; cbn -[XLogFileName];
    rewrite <- ?app_assoc; cbn -[XLogFileName];
    repeat split; auto;
    repeat (apply andb_true_intro; split); auto;
    rewrite <- ?app_assoc in *; auto.
Qed.

(** X9. When setupReplicationOrigin returns false, it is for one of five
    reasons, each leaving its own trace on the connection: the target URI
    was refused (nothing sent); the lookup of the origin was refused; the
    origin is not registered on the target (oid 0: the error is logged and
    the connection finished); the read of the progress was refused; or the
    session setup was refused. [previousLSN] has changed only in the last
    case, where the progress had already been read. *)
Theorem setupReplicationOrigin_failure (context : StreamApplyContext)
        (paths_ source_pguri_ target_pguri_ origin_ : string)
        (endpos_ : XLogRecPtr) (apply_ : bool) (context' : StreamApplyContext) :
  setupReplicationOrigin context paths_ source_pguri_ target_pguri_ origin_
                         endpos_ apply_ = (false, context') ->
  let history := sent (pgsql context) in
  (pgsql_init_target target_pguri_ = false
   /\ sent (pgsql context') = history
   /\ previousLSN context' = previousLSN context)
  \/ (pgsql_accepts history (PgOriginOid origin_) = false
      /\ sent (pgsql context') = history ++ [PgOriginOid origin_]
      /\ previousLSN context' = previousLSN context)
  \/ (replication_origin_oid origin_ = 0%N
      /\ sent (pgsql context') = history ++ [PgOriginOid origin_; PgFinish]
      /\ previousLSN context' = previousLSN context
      /\ In (LOG_ERROR,
             "Failed to fetch progress for replication origin %s: replication origin not found on target database")
            (log context'))
  \/ (pgsql_accepts (history ++ [PgOriginOid origin_]) (PgOriginProgress origin_) = false
      /\ sent (pgsql context') = history ++ [PgOriginOid origin_; PgOriginProgress origin_]
      /\ previousLSN context' = previousLSN context)
  \/ (pgsql_accepts (history ++ [PgOriginOid origin_; PgOriginProgress origin_])
                    (PgOriginSessionSetup origin_) = false
      /\ sent (pgsql context') =
         history ++ [PgOriginOid origin_; PgOriginProgress origin_;
                     PgOriginSessionSetup origin_]
      /\ previousLSN context' = replication_origin_progress origin_).
Proof.
  unfold setupReplicationOrigin, computeSQLFileName, pgsql_finish, pgsql_send.
  cbn -[N.eqb XLogFileName].
  intros E.
  repeat match type of E with
         | context [ if negb ?b then _ else _ ] =>
             destruct b eqn:?; cbn -[N.eqb XLogFileName] in E; try discriminate
         | context [ if (?a =? ?b)%N then _ else _ ] =>
             destruct (N.eqb_spec a b); cbn -[N.eqb XLogFileName] in E; try discriminate
         end.
  all: injection E as <-; cbn -[XLogFileName] in *;
    rewrite <- ?app_assoc in *; cbn -[XLogFileName] in *.
  all: first
         [ left; solve [repeat split; auto]
         | right; left; solve [repeat split; auto]
         | right; right; left;
           solve [repeat split; auto; rewrite ?in_app_iff; cbn; auto 10]
         | right; right; right; left; solve [repeat split; auto]
         | right; right; right; right; solve [repeat split; auto] ].
Qed.

End DriverMore.

Section WaitFacts.
Context `{LdStream} `{TargetDatabase} `{Environment}.

Lemma wait_for_sentinel_loop_exit fuel : forall now firstLoop sentinel context ok now' context',
  wait_for_sentinel_loop fuel now firstLoop sentinel context = Some (ok, (now', context')) ->
  (now <= now')%nat
  /\ (forall t, (now <= t < now')%nat -> asked_to_stop t = false)
  /\ wait_keeps context context'
  /\ (if ok then
        (Sentinel.apply sentinel = true /\ now' = now
         /\ sentinel_fields_kept context context')
        \/ (exists s0 s1,
               pgsql_get_sentinel now' s0 = (true, s1)
               /\ Sentinel.apply s1 = true
               /\ asked_to_stop now' = false
               /\ startpos context' = Sentinel.startpos s1
               /\ endpos context' = Sentinel.endpos s1
               /\ apply context' = true)
        \/ (exists t s0 s1,
               (now <= t)%nat /\ now' = S t
               /\ pgsql_get_sentinel t s0 = (false, s1)
               /\ Sentinel.apply s1 = true
               /\ sentinel_fields_kept context context')
      else asked_to_stop now' = true /\ sentinel_fields_kept context context').
Proof.
  unfold wait_keeps, sentinel_fields_kept.
  induction fuel as [|fuel IH]; intros now firstLoop sentinel context ok now' context' E;
    cbn in E.
  - destruct (Sentinel.apply sentinel) eqn:A; [|discriminate].
    injection E as <- <- <-. cbn.
    repeat split; auto; try lia. left. auto.
  - destruct (Sentinel.apply sentinel) eqn:A.
    { injection E as <- <- <-. cbn.
      repeat split; auto; try lia. left. auto. }
    destruct (asked_to_stop now) eqn:Stop.
    { injection E as <- <- <-. cbn. repeat split; auto; lia. }
    destruct (pgsql_get_sentinel now sentinel) as [fetched sentinel'] eqn:G.
    destruct fetched; cbn in E.
    + destruct (Sentinel.apply sentinel') eqn:A'.
      * injection E as <- <- <-. cbn.
        repeat split; auto; try lia.
        right. left. exists sentinel, sentinel'. rewrite A'. repeat split; auto.
      * apply IH in E.
        destruct E as (L & Q & (K1 & K2 & K3 & K4) & R).
        assert (F : forall t, (now <= t < now')%nat -> asked_to_stop t = false).
        { intros t T. destruct (Nat.eq_dec t now) as [->|]; auto. apply Q. lia. }
        destruct firstLoop; cbn in *.
        all: repeat split; auto; try lia.
        all: destruct ok.
        all: try (destruct R as [(R & _)|[R|(t & s0 & s1 & T1 & T2 & R)]];
                  [congruence | right; left; exact R
                  | right; right; exists t, s0, s1; repeat split; auto; tauto || lia ]).
        all: tauto.
    + apply IH in E.
      destruct E as (L & Q & (K1 & K2 & K3 & K4) & R).
      assert (F : forall t, (now <= t < now')%nat -> asked_to_stop t = false).
      { intros t T. destruct (Nat.eq_dec t now) as [->|]; auto. apply Q. lia. }
      cbn in *.
      repeat split; auto; try lia.
      destruct ok.
      * destruct R as [(R & -> & K)|[R|(t & s0 & s1 & T1 & T2 & R)]].
        -- right. right. exists now, sentinel, sentinel'. repeat split; auto; tauto.
        -- right. left. exact R.
        -- right. right. exists t, s0, s1. repeat split; auto; try tauto; lia.
      * tauto.
Qed.

(** X10. However long stream_apply_wait_for_sentinel waits, it leaves the
    target connection, the replay position, the end-position flag and the
    file name as they were, and no shutdown was requested on any turn before
    the one it returns at. When it returns true, either a sentinel fetched
    on that turn had apply set, and the start position, the end position and
    the apply flag of the context are those of that sentinel; or an earlier
    fetch failed and yet left apply set in the sentinel it was given, and
    then the context has none of the sentinel's values. When it returns
    false, either the source URI was refused and the context is untouched,
    or a shutdown was requested on that turn. *)
Theorem stream_apply_wait_for_sentinel_exit (fuel now : nat) (specs : StreamSpecs)
        (context : StreamApplyContext) (ok : bool) (now' : nat)
        (context' : StreamApplyContext) :
  stream_apply_wait_for_sentinel fuel now specs context = Some (ok, (now', context')) ->
  (now <= now')%nat
  /\ (forall t, (now <= t < now')%nat -> asked_to_stop t = false)
  /\ wait_keeps context context'
  /\ (if ok then
        pgsql_init_source (Specs.source_pguri specs) = true
        /\ ((exists s0 s1,
                pgsql_get_sentinel now' s0 = (true, s1)
                /\ Sentinel.apply s1 = true
                /\ asked_to_stop now' = false
                /\ startpos context' = Sentinel.startpos s1
                /\ endpos context' = Sentinel.endpos s1
                /\ apply context' = true)
            \/ (exists t s0 s1,
                   (now <= t)%nat /\ now' = S t
                   /\ pgsql_get_sentinel t s0 = (false, s1)
                   /\ Sentinel.apply s1 = true
                   /\ sentinel_fields_kept context context'))
      else
        (pgsql_init_source (Specs.source_pguri specs) = false
         /\ now' = now /\ context' = context)
        \/ (asked_to_stop now' = true /\ sentinel_fields_kept context context')).
Proof.
  unfold stream_apply_wait_for_sentinel.
  destruct (pgsql_init_source (Specs.source_pguri specs)) eqn:I; cbn; intros E.
  - apply wait_for_sentinel_loop_exit in E.
    destruct E as (L & Q & K & R).
    split; [exact L|]. split; [exact Q|]. split; [exact K|].
    destruct ok.
    + split; auto. destruct R as [(R & _)|[R|R]]; [discriminate R| |]; auto.
    + right. exact R.
  - injection E as <- <- <-. unfold wait_keeps.
    repeat split; auto; try lia.
Qed.

End WaitFacts.

Section LoopFacts.
Context `{LdStream} `{TargetDatabase} `{Environment}.

Lemma loop_keeps_refl context : loop_keeps context context.
Proof.
  unfold loop_keeps. repeat split; auto. exists []. symmetry; apply app_nil_r.
Qed.

Lemma loop_keeps_trans c1 c2 c3 :
  loop_keeps c1 c2 -> loop_keeps c2 c3 -> loop_keeps c1 c3.
Proof.
  unfold loop_keeps.
  intros (A1 & A2 & A3 & A4 & n1 & A5) (B1 & B2 & B3 & B4 & n2 & B5).
  repeat split; try congruence.
  exists (n1 ++ n2). rewrite B5, A5, app_assoc. reflexivity.
Qed.

Lemma replay_keeps_loop c1 c2 : replay_keeps c1 c2 -> loop_keeps c1 c2.
Proof.
  unfold replay_keeps, loop_keeps. intuition.
Qed.

(** The sync with the sentinel and the check of the end position that
    follows it touch neither the target connection nor what names the
    files. *)
Lemma sync_and_check_keeps now context :
  let context' :=
    check_endpos_after_sync (snd (stream_apply_sync_sentinel now context)) in
  dir context' = dir context
  /\ timeline context' = timeline context
  /\ WalSegSz context' = WalSegSz context
  /\ origin context' = origin context
  /\ pgsql context' = pgsql context
  /\ previousLSN context' = previousLSN context
  /\ sqlFileName context' = sqlFileName context.
Proof.
  unfold check_endpos_after_sync, stream_apply_sync_sentinel.
  destruct (pgsql_init_source (source_pguri context)); cbn -[N.eqb N.leb].
  - destruct (pgsql_sync_sentinel_apply now (previousLSN context) Sentinel.zero)
      as [[|] sentinel]; cbn -[N.eqb N.leb];
      match goal with |- context [ if ?b then _ else _ ] => destruct b end;
      cbn; auto 10.
  - match goal with |- context [ if ?b then _ else _ ] => destruct b end;
      cbn; auto 10.
Qed.

(** One full turn of the loop, from a context that follows the file of
    its position to the next such context. *)
Lemma catchup_turn now context replayed :
  stream_apply_file (read_lines now (sqlFileName context)) context = (true, replayed) ->
  let checked :=
    check_endpos_after_sync (snd (stream_apply_sync_sentinel now replayed)) in
  let named := snd (computeSQLFileName checked) in
  let next :=
    if String.eqb (sqlFileName named) (sqlFileName context)
    then log_debug "Reached end of file %s at %X/%X." named
    else named in
  loop_keeps context checked
  /\ loop_keeps context next
  /\ sqlFileName next = file_of_position next.
Proof.
  intros E checked named next.
  pose proof (replay_keeps_loop _ _ (stream_apply_file_replay_keeps _ _ _ _ E)) as K.
  destruct (sync_and_check_keeps now replayed) as (S1 & S2 & S3 & S4 & S5 & S6 & S7).
  fold checked in S1, S2, S3, S4, S5, S6, S7.
  assert (K' : loop_keeps context checked).
  { eapply loop_keeps_trans; [exact K|].
    unfold loop_keeps. repeat split; auto.
    exists []. rewrite S5. symmetry; apply app_nil_r. }
  split; [exact K'|].
  assert (N : loop_keeps checked named /\ sqlFileName named = file_of_position named).
  { unfold named, computeSQLFileName, loop_keeps, file_of_position. cbn -[XLogFileName].
    repeat split; auto. exists []. symmetry; apply app_nil_r. }
  destruct N as [N1 N2].
  unfold next. destruct (String.eqb _ _).
  - split.
    + eapply loop_keeps_trans; [exact K'|]. eapply loop_keeps_trans; [exact N1|].
      unfold loop_keeps. cbn. repeat split; auto.
      exists []. symmetry; apply app_nil_r.
    + unfold file_of_position in *. cbn -[XLogFileName]. exact N2.
  - split; [|exact N2]. eapply loop_keeps_trans; eassumption.
Qed.

(** X11. A file that is not there yet is no error: as long as the file
    the context names does not exist and no shutdown is requested, the
    loop does nothing but wait; when the shutdown then comes, it returns
    true, having sent nothing to the target but the closing of the
    connection and with the replay position and the file name as they
    were. *)
Theorem catchup_loop_waits_for_file (k : nat) :
  forall (fuel now : nat) (context : StreamApplyContext),
    (k < fuel)%nat ->
    (forall t, (now <= t < now + k)%nat ->
               asked_to_stop t = false
               /\ file_exists t (sqlFileName context) = false) ->
    asked_to_stop (now + k) = true ->
    exists context',
      catchup_loop fuel now context = Some (true, context')
      /\ sent (pgsql context') = sent (pgsql context) ++ [PgFinish]
      /\ previousLSN context' = previousLSN context
      /\ reachedEndPos context' = reachedEndPos context
      /\ sqlFileName context' = sqlFileName context.
Proof.
  induction k as [|k IH]; intros fuel now context F Q Stop.
  - destruct fuel as [|fuel]; [lia|]. cbn [catchup_loop].
    rewrite Nat.add_0_r in Stop. rewrite Stop.
    eexists. split; [reflexivity|]. cbn. auto.
  - destruct fuel as [|fuel]; [lia|]. cbn [catchup_loop].
    destruct (Q now) as [Q1 Q2]; [lia|]. rewrite Q1, Q2. cbn [negb].
    destruct (IH fuel (S now)
                 (log_debug "File %s does not exists yet, retrying in %dms" context))
      as (context' & E & P1 & P2 & P3 & P4).
    + lia.
    + intros t T. apply Q. lia.
    + replace (S now + k)%nat with (now + S k)%nat by lia. exact Stop.
    + exists context'. split; [exact E|]. cbn in *. auto.
Qed.

(** X12. When the driver's loop returns false from a context that follows
    the file of its position, it is the replay of a file that has failed:
    on some turn, with no shutdown requested on any turn up to it, the file
    of the position the replay had reached by then existed, and
    stream_apply_file returned false on it; the context returned is the one
    that call has left, so the connection to the target was not closed by
    the loop. The directory, the timeline and the segment size that name
    the files are those the loop started with. *)
Theorem catchup_loop_failure (fuel : nat) :
  forall (now : nat) (context context' : StreamApplyContext),
    sqlFileName context = file_of_position context ->
    catchup_loop fuel now context = Some (false, context') ->
    exists t before,
      (now <= t)%nat
      /\ (forall u, (now <= u <= t)%nat -> asked_to_stop u = false)
      /\ loop_keeps context before
      /\ sqlFileName before = file_of_position before
      /\ file_exists t (sqlFileName before) = true
      /\ stream_apply_file (read_lines t (sqlFileName before)) before
         = (false, context').
Proof.
  induction fuel as [|fuel IH]; intros now context context' P E; [discriminate|].
  cbn [catchup_loop] in E.
  destruct (asked_to_stop now) eqn:Stop; [discriminate|].
  assert (Later : forall t,
             (S now <= t)%nat ->
             (forall u, (S now <= u <= t)%nat -> asked_to_stop u = false) ->
             (now <= t)%nat
             /\ (forall u, (now <= u <= t)%nat -> asked_to_stop u = false)).
  { intros t T Q. split; [lia|].
    intros u U. destruct (Nat.eq_dec u now) as [->|]; auto. apply Q. lia. }
  destruct (file_exists now (sqlFileName context)) eqn:Ex; cbn [negb] in E.
  2:{ apply IH in E.
      - destruct E as (t & before & T & Q & K & P' & Ex' & E).
        destruct (Later t T Q) as [T' Q'].
        exists t, before. repeat split; auto.
        + eapply loop_keeps_trans; [|exact K].
          unfold loop_keeps. cbn. repeat split; auto.
          exists []. symmetry; apply app_nil_r.
        + apply K.
        + apply K.
        + apply K.
        + apply K.
      - unfold file_of_position in *. cbn -[XLogFileName]. exact P. }
  destruct (stream_apply_file (read_lines now (sqlFileName context)) context)
    as [ok1 replayed] eqn:E1.
  destruct ok1; cbn [negb] in E.
  2:{ injection E as <-. exists now, context.
      split; [lia|]. split.
      { intros u U. replace u with now by lia. exact Stop. }
      split; [apply loop_keeps_refl|]. auto. }
  destruct (catchup_turn now context replayed E1) as (_ & K & P').
  destruct (stream_apply_sync_sentinel now replayed) as [ok2 synced] eqn:E2.
  cbn [snd] in K, P'.
  destruct (reachedEndPos (check_endpos_after_sync synced)); [discriminate|].
  unfold computeSQLFileName in E, K, P'. cbn [negb snd] in E, K, P'.
  apply IH in E; [|exact P'].
  destruct E as (t & before & T & Q & K2 & P2 & Ex2 & E).
  destruct (Later t T Q) as [T' Q'].
  exists t, before.
  split; [exact T'|]. split; [exact Q'|].
  split; [eapply loop_keeps_trans; eassumption|]. auto.
Qed.

(** X13. When the driver's loop returns true, the last thing it did was
    to close the connection to the target, and it did so for one of two
    reasons: a shutdown was requested on the turn it returns at, or on
    that turn a file was replayed with success and [reachedEndPos] was set
    after the sync with the sentinel. No shutdown was requested on an
    earlier turn, and all the loop has sent was added to what had been
    sent before. *)
Theorem catchup_loop_success (fuel : nat) :
  forall (now : nat) (context context' : StreamApplyContext),
    catchup_loop fuel now context = Some (true, context') ->
    exists t last,
      (now <= t)%nat
      /\ (forall u, (now <= u < t)%nat -> asked_to_stop u = false)
      /\ context' = pgsql_finish last
      /\ loop_keeps context last
      /\ (asked_to_stop t = true
          \/ (asked_to_stop t = false
              /\ reachedEndPos last = true
              /\ exists before replayed,
                  stream_apply_file (read_lines t (sqlFileName before)) before
                  = (true, replayed)
                  /\ last =
                     check_endpos_after_sync
                       (snd (stream_apply_sync_sentinel t replayed)))).
Proof.
  induction fuel as [|fuel IH]; intros now context context' E; [discriminate|].
  cbn [catchup_loop] in E.
  destruct (asked_to_stop now) eqn:Stop.
  { injection E as <-. exists now, context.
    split; [lia|]. split; [intros; lia|]. split; [reflexivity|].
    split; [apply loop_keeps_refl|]. left. exact Stop. }
  assert (Later : forall t,
             (S now <= t)%nat ->
             (forall u, (S now <= u < t)%nat -> asked_to_stop u = false) ->
             (now <= t)%nat
             /\ (forall u, (now <= u < t)%nat -> asked_to_stop u = false)).
  { intros t T Q. split; [lia|].
    intros u U. destruct (Nat.eq_dec u now) as [->|]; auto. apply Q. lia. }
  destruct (file_exists now (sqlFileName context)) eqn:Ex; cbn [negb] in E.
  2:{ apply IH in E.
      destruct E as (t & last & T & Q & L & K & R).
      destruct (Later t T Q) as [T' Q'].
      exists t, last. split; [exact T'|]. split; [exact Q'|].
      split; [exact L|]. split; [|exact R].
      eapply loop_keeps_trans; [|exact K].
      unfold loop_keeps. cbn. repeat split; auto.
      exists []. symmetry; apply app_nil_r. }
  destruct (stream_apply_file (read_lines now (sqlFileName context)) context)
    as [ok1 replayed] eqn:E1.
  destruct ok1; cbn [negb] in E; [|discriminate].
  destruct (catchup_turn now context replayed E1) as (K0 & K & _).
  destruct (stream_apply_sync_sentinel now replayed) as [ok2 synced] eqn:E2.
  cbn [snd] in K0, K.
  destruct (reachedEndPos (check_endpos_after_sync synced)) eqn:R.
  { injection E as <-. exists now, (check_endpos_after_sync synced).
    split; [lia|]. split; [intros; lia|]. split; [reflexivity|].
    split; [exact K0|]. right. split; [exact Stop|]. split; [exact R|].
    exists context, replayed. rewrite E2. auto. }
  unfold computeSQLFileName in E, K. cbn [negb snd] in E, K.
  apply IH in E.
  destruct E as (t & last & T & Q & L & K2 & R2).
  destruct (Later t T Q) as [T' Q'].
  exists t, last. split; [exact T'|]. split; [exact Q'|].
  split; [exact L|]. split; [|exact R2].
  eapply loop_keeps_trans; eassumption.
Qed.

End LoopFacts.

Section CatchupFacts.
Context `{LdStream} `{TargetDatabase} `{Environment}.




End CatchupFacts.

Section FileNameFacts.















End FileNameFacts.

Section MoreRuns.
Import Producer Scenario Faults.

Lemma replay_failure_point_witness :
  let context := context_at 0xA0000000 0 in
  let refusing := reluctant_target is_insert in
  exists reached' context',
    @replay ld_stream refusing single_transaction context
    = (false, (reached', context'))
    /\ exists pre sql post reached before,
        single_transaction = pre ++ sql :: post
        /\ @apply_lines ld_stream refusing (List.length single_transaction) 0 pre
             false context = (true, (reached, before))
        /\ reachedEndPos before = false
        /\ @apply_line ld_stream refusing (List.length single_transaction)
             (List.length pre) sql reached before
           = (false, (reached', context'))
        /\ previousLSN context' = previousLSN before
        /\ reachedEndPos context' = false
        /\ @failure_cause ld_stream refusing (List.length single_transaction)
             (List.length pre) sql before context'.
Proof.
  intros context refusing.
  do 2 eexists. split; [vm_compute; reflexivity|].
  apply (@replay_failure_point ld_stream refusing single_transaction context).
  vm_compute; reflexivity.
Defined.

Lemma malformed_record_is_fatal_witness :
  let context := context_at 0xA0000000 0 in
  let sql := begin_line "42" "0/0" ts in
  let metadata := mkMetadata STREAM_ACTION_BEGIN 42 0 ts in
  reachedEndPos context = false
  /\ @parseSQLAction ld_stream sql metadata_zero = (STREAM_ACTION_BEGIN, metadata)
  /\ malformed metadata = true
  /\ exists reached' context' message,
      @apply_lines ld_stream target 1 0 [sql] false context
      = (false, (reached', context'))
      /\ In (LOG_FATAL, message) (log context')
      /\ sent (pgsql context') = sent (pgsql context)
      /\ previousLSN context' = previousLSN context
      /\ reachedEndPos context' = false.
Proof.
  intros context sql metadata.
  assert (P : @parseSQLAction ld_stream sql metadata_zero
              = (STREAM_ACTION_BEGIN, metadata)) by (vm_compute; reflexivity).
  split; [reflexivity|]. split; [exact P|]. split; [reflexivity|].
  apply (@malformed_record_is_fatal ld_stream target 1 0 sql [] false context
           STREAM_ACTION_BEGIN metadata);
    [reflexivity | exact P | left; reflexivity | reflexivity].
Defined.

Lemma dml_line_sent_without_semicolon_witness :
  let context := context_at 0xA0000000 0 in
  let sql := "INSERT INTO t VALUES (1);" in
  is_dml (fst (@parseSQLAction ld_stream sql metadata_zero)) = true
  /\ sent (pgsql (context_of (@apply_line ld_stream target 3 1 sql true context)))
     = [PgExecute "INSERT INTO t VALUES (1)"]
  /\ @apply_line ld_stream target 3 1 sql false context = (true, (false, context)).
Proof.
  intros context sql.
  assert (D : is_dml (fst (@parseSQLAction ld_stream sql metadata_zero)) = true)
    by (vm_compute; reflexivity).
  split; [exact D|].
  destruct (@dml_line_sent_without_semicolon ld_stream target) as (_ & _ & P).
  split.
  - destruct (P 3 1 sql true context D) as (S & _). rewrite S. reflexivity.
  - exact (P 3 1 sql false context D).
Defined.

Lemma replay_again_sends_nothing_witness :
  let context := context_at 0xA0000000 0 in
  let pre := firstn 2 late_transaction in
  let sql := commit_line "43" "0/A0000080" ts in
  @closes_transaction ld_stream sql = true
  /\ @in_lsn_order ld_stream (pre ++ [sql])
  /\ @switch_lsns ld_stream (pre ++ [sql]) = []
  /\ exists reached' context',
      @replay ld_stream target (pre ++ [sql]) context = (true, (reached', context'))
      /\ reachedEndPos context' = false
      /\ exists context'',
          @replay ld_stream target (pre ++ [sql]) context' = (true, (false, context''))
          /\ sent (pgsql context'') = sent (pgsql context')
          /\ previousLSN context'' = previousLSN context'
          /\ reachedEndPos context'' = false.
Proof.
  intros context pre sql.
  assert (C : @closes_transaction ld_stream sql = true) by (vm_compute; reflexivity).
  assert (S : @in_lsn_order ld_stream (pre ++ [sql])).
  { unfold in_lsn_order.
    change (Sorted N.le [0xA0000060; 0xA0000080]%N).
    repeat constructor; discriminate. }
  assert (W : @switch_lsns ld_stream (pre ++ [sql]) = []) by (vm_compute; reflexivity).
  split; [exact C|]. split; [exact S|]. split; [exact W|].
  do 2 eexists. split; [vm_compute; reflexivity|]. split; [reflexivity|].
  eapply (@replay_again_sends_nothing ld_stream target pre sql context);
    [exact C | exact S | exact W | vm_compute; reflexivity | reflexivity].
Defined.

Lemma setupReplicationOrigin_success_witness :
  let context := set_system context_zero 1 16777216 in
  exists context',
    @setupReplicationOrigin target context "/cdc" "postgres://source"
      "postgres://target" "pgcopydb" 0xA0000050 false = (true, context')
    /\ previousLSN context' = 0xA0000000%N
    /\ sent (pgsql context')
       = [PgOriginOid "pgcopydb"; PgOriginProgress "pgcopydb";
          PgOriginSessionSetup "pgcopydb"]
    /\ wal context' = "0000000100000000000000A0"
    /\ sqlFileName context' = "/cdc/0000000100000000000000A0.sql".
Proof.
  intros context. eexists. split; [vm_compute; reflexivity|].
  destruct (@setupReplicationOrigin_success target context "/cdc"
              "postgres://source" "postgres://target" "pgcopydb" 0xA0000050 false
              _ ltac:(vm_compute; reflexivity))
    as (_ & _ & P & Q & _ & _ & Wl & F & _).
  split; [exact P|]. split; [exact Q|]. split; [exact Wl|]. exact F.
Defined.

Lemma setupReplicationOrigin_failure_witness :
  let context := set_system context_zero 1 16777216 in
  exists context',
    @setupReplicationOrigin target_without_origin context "/cdc"
      "postgres://source" "postgres://target" "pgcopydb" 0 false = (false, context')
    /\ sent (pgsql context') = [PgOriginOid "pgcopydb"; PgFinish]
    /\ previousLSN context' = previousLSN context.
Proof.
  intros context. eexists. split; [vm_compute; reflexivity|].
  destruct (@setupReplicationOrigin_failure target_without_origin context
              "/cdc" "postgres://source" "postgres://target" "pgcopydb" 0 false
              _ ltac:(vm_compute; reflexivity))
    as [(I & _)|[(A & _)|[(_ & S & P & _)|[(A & _)|(A & _)]]]];
    try discriminate.
  split; [exact S|exact P].
Defined.

Lemma stream_apply_wait_for_sentinel_exit_witness :
  let sentinel := Sentinel.mk 0xA0000000 0xA0000050 true in
  let environment := steady_environment (directory single_transaction) (Some sentinel) 100 in
  exists now' context',
    @stream_apply_wait_for_sentinel environment 3 0 (prefetch_specs 0) context_zero
    = Some (true, (now', context'))
    /\ startpos context' = 0xA0000000%N
    /\ endpos context' = 0xA0000050%N
    /\ apply context' = true
    /\ wait_keeps context_zero context'.
Proof.
  intros sentinel environment. do 2 eexists. split; [vm_compute; reflexivity|].
  destruct (@stream_apply_wait_for_sentinel_exit environment 3 0 (prefetch_specs 0)
              context_zero true _ _ ltac:(vm_compute; reflexivity))
    as (_ & _ & K & _ & [(s0 & s1 & G & _ & _ & P1 & P2 & P3)
                        |(t & s0 & s1 & _ & _ & G & _)]).
  - cbn in G. injection G as <-.
    split; [exact P1|]. split; [exact P2|]. split; [exact P3|exact K].
  - cbn in G. discriminate G.
Defined.

Lemma catchup_loop_waits_for_file_witness :
  let environment := steady_environment (fun _ => None) None 2 in
  let context := context_in_cdc 0xA0000000 0 in
  exists context',
    @catchup_loop ld_stream target environment 3 0 context = Some (true, context')
    /\ sent (pgsql context') = sent (pgsql context) ++ [PgFinish]
    /\ previousLSN context' = previousLSN context
    /\ reachedEndPos context' = reachedEndPos context
    /\ sqlFileName context' = sqlFileName context.
Proof.
  intros environment context.
  apply (@catchup_loop_waits_for_file ld_stream target environment 2 3 0 context).
  - lia.
  - intros t T. split; [|reflexivity].
    change ((2 <=? t)%nat = false). apply Nat.leb_gt. lia.
  - reflexivity.
Defined.

Lemma catchup_loop_failure_witness :
  let environment := steady_environment (directory ["SELECT 1;"]) None 100 in
  let context := context_in_cdc 0xA0000000 0 in
  sqlFileName context = file_of_position context
  /\ exists context',
      @catchup_loop ld_stream target environment 3 0 context = Some (false, context')
      /\ exists t before,
          (0 <= t)%nat
          /\ (forall u, (0 <= u <= t)%nat -> @asked_to_stop environment u = false)
          /\ loop_keeps context before
          /\ sqlFileName before = file_of_position before
          /\ @file_exists environment t (sqlFileName before) = true
          /\ @stream_apply_file ld_stream target
               (@read_lines environment t (sqlFileName before)) before
             = (false, context').
Proof.
  intros environment context.
  assert (P : sqlFileName context = file_of_position context)
    by (vm_compute; reflexivity).
  split; [exact P|].
  eexists. split; [vm_compute; reflexivity|].
  apply (@catchup_loop_failure ld_stream target environment 3 0 context _ P).
  vm_compute; reflexivity.
Defined.

Lemma catchup_loop_success_witness :
  let sentinel := Sentinel.mk 0 0xA0000050 true in
  let environment :=
    steady_environment (directory single_transaction) (Some sentinel) 100 in
  let context := context_in_cdc 0xA0000000 0xA0000050 in
  exists context',
    @catchup_loop ld_stream target environment 3 0 context = Some (true, context')
    /\ exists t last,
        (0 <= t)%nat
        /\ (forall u, (0 <= u < t)%nat -> @asked_to_stop environment u = false)
        /\ context' = @pgsql_finish target last
        /\ loop_keeps context last
        /\ (@asked_to_stop environment t = true
            \/ (@asked_to_stop environment t = false
                /\ reachedEndPos last = true
                /\ exists before replayed,
                    @stream_apply_file ld_stream target
                      (@read_lines environment t (sqlFileName before)) before
                    = (true, replayed)
                    /\ last =
                       check_endpos_after_sync
                         (snd (@stream_apply_sync_sentinel environment t replayed)))).
Proof.
  intros sentinel environment context.
  eexists. split; [vm_compute; reflexivity|].
  apply (@catchup_loop_success ld_stream target environment 3 0 context).
  vm_compute; reflexivity.
Defined.



End MoreRuns.
